(** * go-weather: the temperature aggregator and its providers

    A shallow embedding of [main.go]: the three providers, the concurrent
    aggregator [multiWeatherProvider.temperature] and the sequential
    [temperature].  The HTTP handlers of [main] are left out, and so are the
    calls that only log or close a body.

    Go's [float64] is the kernel's binary64 float, so every sum, quotient and
    unit conversion below rounds as the compiled program does where the
    compiler does not fuse a multiplication with an addition (amd64).  A Go
    result [(float64, error)] is a pair whose second component is [None] for
    [nil].  The network, [fmt.Sprint] and the JSON decoder are the program's
    environment: the first two are interfaces the definitions are generic in,
    the third is modelled after the documentation of [encoding/json]. *)

From Stdlib Require Import Floats ZArith List String Ascii Bool Arith Lia Permutation
  DecimalString.
Import ListNotations.

Set Warnings "-inexact-float,-register-all".
#[local] Open Scope string_scope.
#[local] Open Scope float_scope.

(** ** Values of the Go runtime *)

Definition float64 : Set := float.

(** [float64(n)] for a slice length [n] (below 2^63, as every Go length is). *)
Definition float64_of_len (n : nat) : float64 :=
  PrimFloat.of_uint63 (Uint63.of_Z (Z.of_nat n)).

(** The [error] interface, by the kinds of the specification.  The program
    makes no error of its own: it passes on what [http.Get] hands it, an
    [UpstreamError], and what the JSON decoder's [Decode] hands it, a
    [DecodeError].  Nothing in it makes a [ConfigurationError]. *)
Inductive error : Set :=
| UpstreamError (msg : string)
| DecodeError (msg : string)
| ConfigurationError (msg : string).

(** What a call does: it returns, or it panics (a panic that nobody recovers
    ends the process). *)
Inductive outcome (A : Type) : Type :=
| Returns (a : A)
| Panics (msg : string).
Arguments Returns {A} a.
Arguments Panics {A} msg.

(** ** encoding/json, as far as the four anonymous structs need it *)

Module json.

(** A syntactically valid JSON text.  A number carries the [float64] its
    literal converts to, or [None] when the literal is out of range. *)
Inductive value : Set :=
| Null
| Boolean (b : bool)
| Number (lit : option float64)
| Str (s : string)
| Array (elems : list value)
| Object (members : list (string * value)).

Definition kindOf (v : value) : string :=
  match v with
  | Null => "null"
  | Boolean _ => "bool"
  | Number _ => "number"
  | Str _ => "string"
  | Array _ => "array"
  | Object _ => "object"
  end.

Definition lower (c : ascii) : ascii :=
  if (Nat.leb 65 (nat_of_ascii c) && Nat.leb (nat_of_ascii c) 90)%bool
  then ascii_of_nat (nat_of_ascii c + 32) else c.

(** Keys are compared after case folding.  The names of the fields are
    ASCII here, and besides the ASCII letters only two code points fold to
    an ASCII letter: U+017F to s and U+212A to k (UTF-8 [C5 BF] and
    [E2 84 AA]). *)
Fixpoint foldName (s : string) : string :=
  match s with
  | EmptyString => EmptyString
  | String "197"%char (String "191"%char s') => String "s"%char (foldName s')
  | String "226"%char (String "132"%char (String "170"%char s')) =>
      String "k"%char (foldName s')
  | String c s' => String (lower c) (foldName s')
  end.

Definition equalFold (a b : string) : bool := String.eqb (foldName a) (foldName b).

(** A decoder stores a JSON value into a Go value that already exists and
    reports the first mismatch it met ([d.saveError]); it goes on decoding
    after a mismatch. *)
Definition decoder (A : Type) : Type := A -> value -> A * option error.

Definition saveError (saved next : option error) : option error :=
  match saved with
  | Some _ => saved
  | None => next
  end.

Definition typeError (v : value) (goType : string) : error :=
  DecodeError ("json: cannot unmarshal " ++ kindOf v ++ " into Go value of type " ++ goType).

Definition float64_ : decoder float64 := fun cur v =>
  match v with
  | Null => (cur, None)
  | Number (Some f) => (f, None)
  | _ => (cur, Some (typeError v "float64"))
  end.

(** One exported field of a struct: its key and how a value is stored in it. *)
Record field (A : Type) : Type := { name : string; store : decoder A }.
Arguments name {A} f.
Arguments store {A} f.

(** The field a key names: an exact match is preferred, a match up to case
    is accepted. *)
Definition findField {A} (fields : list (field A)) (key : string) : option (field A) :=
  match find (fun f => String.eqb (name f) key) fields with
  | Some f => Some f
  | None => find (fun f => equalFold (name f) key) fields
  end.

Definition member {A} (fields : list (field A)) (acc : A * option error)
    (m : string * value) : A * option error :=
  match findField fields (fst m) with
  | Some f => let (cur, err) := store f (fst acc) (snd m) in (cur, saveError (snd acc) err)
  | None => acc
  end.

(** A struct takes an object, member by member in the order of the text;
    unknown keys are skipped, [null] changes nothing. *)
Definition struct {A} (goType : string) (fields : list (field A)) : decoder A := fun cur v =>
  match v with
  | Null => (cur, None)
  | Object members => fold_left (member fields) members (cur, None)
  | _ => (cur, Some (typeError v goType))
  end.

(** A slice value: its elements, and what its backing array holds behind
    them; behind these the array, and every array the slice grows into, is
    zero memory. *)
Record Slice (A : Type) : Type := { elems : list A; spare : list A }.
Arguments elems {A} s.
Arguments spare {A} s.

(** The nil slice, and the slice that [reflect.MakeSlice(t, 0, 0)] makes. *)
Definition empty {A} : Slice A := {| elems := []; spare := [] |}.

(** One element of an array: it is decoded into the element the slice has
    at that index, or, past its length, into what the backing array holds
    there, the length being extended by one. *)
Definition element {A} (zero : A) (elem : decoder A)
    (acc : (list A * list A) * option error) (x : value) : (list A * list A) * option error :=
  let (a, err) := elem (hd zero (snd (fst acc))) x in
  ((fst (fst acc) ++ [a], tl (snd (fst acc)))%list, saveError (snd acc) err).

(** A slice takes an array, element by element from index 0; at the end its
    length is the number of elements of the array, and what it held behind
    stays in the backing array.  The empty array makes it a new slice of
    length and capacity 0, [null] makes it the nil slice. *)
Definition slice {A} (zero : A) (elem : decoder A) : decoder (Slice A) := fun cur v =>
  match v with
  | Null => (empty, None)
  | Array [] => (empty, None)
  | Array xs =>
      let r := fold_left (element zero elem) xs (([], elems cur ++ spare cur)%list, None) in
      ({| elems := fst (fst r); spare := snd (fst r) |}, snd r)
  | _ => (cur, Some (typeError v "slice"))
  end.

(** A decoder for a field of type [B] inside a struct of type [A]. *)
Definition within {A B} (get : A -> B) (set : B -> A -> A) (d : decoder B) : decoder A :=
  fun cur v => let (b, err) := d (get cur) v in (set b cur, err).

End json.

(** ** net/http and fmt *)

Module http.

(** What [json.NewDecoder(resp.Body).Decode] finds in a body: a first JSON
    value, or no such value (a syntax error, a truncated or failed read). *)
Inductive Body : Set :=
| Unreadable (msg : string)
| Document (v : json.value).

Record Response : Set := { StatusCode : Z; body : Body }.

(** The transport: the response to a GET of a URL, or the message of the
    transport error.  A reply with a status outside 2xx is a response. *)
Class Client : Type := { roundTrip : string -> Response + string }.

Definition Get `{Client} (url : string) : Response + error :=
  match roundTrip url with
  | inl resp => inl resp
  | inr msg => inr (UpstreamError msg)
  end.

End http.

Module fmt.

Class Formatter : Type := { Sprint : float64 -> string }.

End fmt.

(** [json.NewDecoder(body).Decode(&target)] *)
Definition Decode {A} (shape : json.decoder A) (b : http.Body) (target : A) : A * option error :=
  match b with
  | http.Unreadable msg => (target, Some (DecodeError msg))
  | http.Document v => shape target v
  end.

(** ** The provider interface *)

Module weatherProvider.

(** [temperature(city string) (float64, error) // Kelvin] *)
Class impl (P : Type) : Type :=
  { temperature : P -> string -> outcome (float64 * option error) }.

(** An interface value: a value of some type that has the method. *)
Record t : Type := box { dyn : Type; methods : impl dyn; self : dyn }.
Arguments box {dyn methods} self.

Definition call (p : t) (city : string) : outcome (float64 * option error) :=
  @temperature (dyn p) (methods p) (self p) city.

End weatherProvider.

(** ** The three providers *)

Module openWeatherMap.

Record t : Set := { apiKey : string }.

(** The anonymous struct [d] of lines 77-81. *)
Record main_ : Set := { Kelvin : float64 }.
Record d_ : Set := { Main : main_ }.

Definition zero : d_ := {| Main := {| Kelvin := 0 |} |}.

Definition shape : json.decoder d_ :=
  json.struct "struct { Main struct {...} }"
    [ {| json.name := "main";
         json.store := json.within Main (fun m _ => {| Main := m |})
           (json.struct "struct { Kelvin float64 }"
              [ {| json.name := "temp";
                   json.store := json.within Kelvin (fun k _ => {| Kelvin := k |})
                                   json.float64_ |} ]) |} ].

Definition url (w : t) (city : string) : string :=
  "http://api.openweathermap.org/data/2.5/weather?APPID=" ++ apiKey w ++ "&q=" ++ city.

Definition temperature `{http.Client} (w : t) (city : string) : float64 * option error :=
  match http.Get (url w city) with
  | inr err => (0, Some err)
  | inl resp =>
      match Decode shape (http.body resp) zero with
      | (_, Some err) => (0, Some err)
      | (d, None) => (Kelvin (Main d), None)
      end
  end.

End openWeatherMap.

Module weatherUnderground.

Record t : Set := { apiKey : string }.

(** The anonymous struct [d] of lines 99-103. *)
Record observation_ : Set := { Celsius : float64 }.
Record d_ : Set := { Observation : observation_ }.

Definition zero : d_ := {| Observation := {| Celsius := 0 |} |}.

Definition shape : json.decoder d_ :=
  json.struct "struct { Observation struct {...} }"
    [ {| json.name := "current_observation";
         json.store := json.within Observation (fun o _ => {| Observation := o |})
           (json.struct "struct { Celsius float64 }"
              [ {| json.name := "temp_c";
                   json.store := json.within Celsius (fun c _ => {| Celsius := c |})
                                   json.float64_ |} ]) |} ].

Definition url (w : t) (city : string) : string :=
  "http://api.wunderground.com/api/" ++ apiKey w ++ "/conditions/q/" ++ city ++ ".json".

Definition temperature `{http.Client} (w : t) (city : string) : float64 * option error :=
  match http.Get (url w city) with
  | inr err => (0, Some err)
  | inl resp =>
      match Decode shape (http.body resp) zero with
      | (_, Some err) => (0, Some err)
      | (d, None) =>
          let kelvin := Celsius (Observation d) + 273.15 in
          (kelvin, None)
      end
  end.

End weatherUnderground.

Module darkSky.

Record t : Set := { apiKey : string; googleKey : string }.

(** The anonymous struct [g] of lines 153-162. *)
Record location_ : Set := { Lat : float64; Lng : float64 }.
Record geometry_ : Set := { Location : location_ }.
Record result_ : Set := { Geometry : geometry_ }.
Record g_ : Set := { Results : json.Slice result_ }.

Definition zeroResult : result_ :=
  {| Geometry := {| Location := {| Lat := 0; Lng := 0 |} |} |}.
Definition zeroG : g_ := {| Results := json.empty |}.

Definition locationShape : json.decoder location_ :=
  json.struct "struct { Lat float64; Lng float64 }"
    [ {| json.name := "Lat";
         json.store := json.within Lat (fun x l => {| Lat := x; Lng := Lng l |}) json.float64_ |};
      {| json.name := "Lng";
         json.store := json.within Lng (fun x l => {| Lat := Lat l; Lng := x |}) json.float64_ |} ].

Definition resultShape : json.decoder result_ :=
  json.struct "struct { Geometry struct {...} }"
    [ {| json.name := "Geometry";
         json.store := json.within Geometry (fun x _ => {| Geometry := x |})
           (json.struct "struct { Location struct {...} }"
              [ {| json.name := "Location";
                   json.store := json.within Location (fun x _ => {| Location := x |})
                                   locationShape |} ]) |} ].

Definition shapeG : json.decoder g_ :=
  json.struct "struct { Results []struct {...} }"
    [ {| json.name := "Results";
         json.store := json.within Results (fun x _ => {| Results := x |})
                         (json.slice zeroResult resultShape) |} ].

(** The anonymous struct [d] of lines 130-134. *)
Record currently_ : Set := { Temperature : float64 }.
Record d_ : Set := { Currently : currently_ }.

Definition zero : d_ := {| Currently := {| Temperature := 0 |} |}.

Definition shape : json.decoder d_ :=
  json.struct "struct { Currently struct {...} }"
    [ {| json.name := "Currently";
         json.store := json.within Currently (fun c _ => {| Currently := c |})
           (json.struct "struct { Temperature float64 }"
              [ {| json.name := "Temperature";
                   json.store := json.within Temperature (fun x _ => {| Temperature := x |})
                                   json.float64_ |} ]) |} ].

Definition geocodeUrl (city key : string) : string :=
  "https://maps.googleapis.com/maps/api/geocode/json?address=" ++ city ++ "&key=" ++ key.

(** [g.Results[0]] is [nth_error (json.elems (Results g)) 0]: indexing out of range is a
    run-time panic.  The [err] returned on the last line is the one of
    [http.Get], which is [nil] there. *)
Definition getCoords `{http.Client} (w : t) (city key : string)
    : outcome (float64 * float64 * option error) :=
  match http.Get (geocodeUrl city key) with
  | inr err => Returns (0, 0, Some err)
  | inl res =>
      match Decode shapeG (http.body res) zeroG with
      | (_, Some err) => Returns (0, 0, Some err)
      | (g, None) =>
          match nth_error (json.elems (Results g)) 0 with
          | None => Panics "runtime error: index out of range [0] with length 0"
          | Some r0 =>
              let lat := Lat (Location (Geometry r0)) in
              let lon := Lng (Location (Geometry r0)) in
              Returns (lat, lon, None)
          end
      end
  end.

Definition forecastUrl `{fmt.Formatter} (w : t) (lattitude longitude : float64) : string :=
  let lat := fmt.Sprint lattitude in
  let lon := fmt.Sprint longitude in
  "https://api.darksky.net/forecast/" ++ apiKey w ++ "/" ++ lat ++ "," ++ lon
    ++ "?exclude=minutely,hourly,daily,alerts,flags&units=si".

Definition temperature `{http.Client} `{fmt.Formatter} (w : t) (city : string)
    : outcome (float64 * option error) :=
  match getCoords w city (googleKey w) with
  | Panics msg => Panics msg
  | Returns (_, _, Some err) => Returns (0, Some err)
  | Returns (lattitude, longitude, None) =>
      match http.Get (forecastUrl w lattitude longitude) with
      | inr err => Returns (0, Some err)
      | inl resp =>
          match Decode shape (http.body resp) zero with
          | (_, Some err) => Returns (0, Some err)
          | (d, None) =>
              let kelvin := Temperature (Currently d) + 273.15 in
              Returns (kelvin, None)
          end
      end
  end.

End darkSky.

#[export] Instance openWeatherMap_provider `{http.Client} : weatherProvider.impl openWeatherMap.t :=
  {| weatherProvider.temperature := fun w city => Returns (openWeatherMap.temperature w city) |}.

#[export] Instance weatherUnderground_provider `{http.Client}
  : weatherProvider.impl weatherUnderground.t :=
  {| weatherProvider.temperature := fun w city => Returns (weatherUnderground.temperature w city) |}.

#[export] Instance darkSky_provider `{http.Client} `{fmt.Formatter}
  : weatherProvider.impl darkSky.t :=
  {| weatherProvider.temperature := darkSky.temperature |}.

(** ** The concurrent aggregator (lines 174-216)

    One call of [multiWeatherProvider.temperature] is a small concurrent
    system: the calling goroutine, one goroutine per provider it has spawned,
    and the two buffered channels.  A state records where the caller stands
    and what the channels hold; an [action] is one atomic move of one
    goroutine, and a schedule (a list of actions) is one interleaving. *)

Module multiWeatherProvider.

Definition t : Type := list weatherProvider.t.

Inductive frame : Type :=
| Spawning (rest : list weatherProvider.t)   (* in the loop of line 183 *)
| Collecting (i : nat) (sum : float64)        (* at the test of the loop of line 197 *)
| Returned (r : float64 * option error)
| Crashed (msg : string).                     (* a goroutine panicked *)

Record state : Type := {
  len_w : nat;                            (* len(w), the capacity of both channels *)
  caller : frame;
  goroutines : list weatherProvider.t;    (* spawned, [p.temperature(city)] not back yet *)
  temps : list float64;                   (* buffered, oldest first *)
  errs : list error                       (* buffered, oldest first *)
}.

Inductive action : Set :=
| Spawn                (* go func(p weatherProvider) {...}(provider) *)
| Collect              (* sum := 0.0; i := 0 *)
| RecvTemp             (* case temp := <-temps *)
| RecvErr              (* case err := <-errs *)
| Return               (* lines 206-215 *)
| Deliver (n : nat).   (* the call of the nth goroutine out is back and it sends *)

Definition init (w : t) : state :=
  {| len_w := List.length w; caller := Spawning w; goroutines := []; temps := []; errs := [] |}.

(** Lines 185-190 for the [n]th goroutine still out: its call is back, and
    it sends on one of the channels or panics.  A send on a full channel
    blocks. *)
Definition deliver (city : string) (s : state) (n : nat) : option state :=
  match nth_error (goroutines s) n with
  | None => None
  | Some p =>
      let others := (firstn n (goroutines s) ++ skipn (S n) (goroutines s))%list in
      match weatherProvider.call p city with
      | Panics msg =>
          Some {| len_w := len_w s; caller := Crashed msg; goroutines := others;
                  temps := temps s; errs := errs s |}
      | Returns (_, Some err) =>
          if (List.length (errs s) <? len_w s)%nat
          then Some {| len_w := len_w s; caller := caller s; goroutines := others;
                       temps := temps s; errs := (errs s ++ [err])%list |}
          else None
      | Returns (k, None) =>
          if (List.length (temps s) <? len_w s)%nat
          then Some {| len_w := len_w s; caller := caller s; goroutines := others;
                       temps := (temps s ++ [k])%list; errs := errs s |}
          else None
      end
  end.

(** One step: the action [a] in the state [s], when it is enabled there.  A
    [select] with both channels ready may take either case, and with none
    ready the caller waits.  After a crash nothing moves; after the return
    of the caller the goroutines still out run on. *)
Definition step (city : string) (a : action) (s : state) : option state :=
  match caller s, a with
  | Crashed _, _ => None
  | _, Deliver n => deliver city s n
  | Spawning (provider :: rest), Spawn =>
      Some {| len_w := len_w s; caller := Spawning rest;
              goroutines := (goroutines s ++ [provider])%list;
              temps := temps s; errs := errs s |}
  | Spawning [], Collect =>
      Some {| len_w := len_w s; caller := Collecting 0 0;
              goroutines := goroutines s; temps := temps s; errs := errs s |}
  | Collecting i sum, RecvTemp =>
      if (i <? len_w s)%nat then
        match temps s with
        | temp :: rest =>
            Some {| len_w := len_w s; caller := Collecting (S i) (sum + temp);
                    goroutines := goroutines s; temps := rest; errs := errs s |}
        | [] => None
        end
      else None
  | Collecting i sum, RecvErr =>
      if (i <? len_w s)%nat then
        match errs s with
        | err :: rest =>
            Some {| len_w := len_w s; caller := Returned (0, Some err);
                    goroutines := goroutines s; temps := temps s; errs := rest |}
        | [] => None
        end
      else None
  | Collecting i sum, Return =>
      if (i <? len_w s)%nat then None
      else
        let avg := sum / float64_of_len (len_w s) in
        let c := avg - 273.15 in
        let f := c * 1.8 + 32 in
        Some {| len_w := len_w s; caller := Returned (f, None);
                goroutines := goroutines s; temps := temps s; errs := errs s |}
  | _, _ => None
  end.

(** The state a schedule leads to, when every action of it is enabled in turn. *)
Fixpoint exec (city : string) (sched : list action) (s : state) : option state :=
  match sched with
  | [] => Some s
  | a :: sched' =>
      match step city a s with
      | Some s' => exec city sched' s'
      | None => None
      end
  end.

(** What the caller has got back, if [temperature] has returned. *)
Definition returned (s : option state) : option (float64 * option error) :=
  match s with
  | Some {| caller := Returned r |} => Some r
  | _ => None
  end.

(** [w.temperature(city)] under the interleaving [sched]: what the call
    returns, when [sched] is an interleaving of it that lets it return. *)
Definition temperature (w : t) (city : string) (sched : list action)
    : option (float64 * option error) :=
  returned (exec city sched (init w)).

(** The outcomes of the providers in the order in which a schedule lets them
    arrive on the channels. *)
Definition arrival (city : string) (a : action) (s : state)
    : list (outcome (float64 * option error)) :=
  match a with
  | Deliver n =>
      match nth_error (goroutines s) n with
      | Some p => [weatherProvider.call p city]
      | None => []
      end
  | _ => []
  end.

Fixpoint arrivals (city : string) (sched : list action) (s : state)
    : list (outcome (float64 * option error)) :=
  match sched with
  | [] => []
  | a :: sched' =>
      match step city a s with
      | Some s' => (arrival city a s ++ arrivals city sched' s')%list
      | None => []
      end
  end.

End multiWeatherProvider.

Import multiWeatherProvider.

(** The temperatures, and the errors, among a list of outcomes, in its order. *)
Definition tempsOf (l : list (outcome (float64 * option error))) : list float64 :=
  flat_map (fun o => match o with Returns (k, None) => [k] | _ => [] end) l.

Definition errsOf (l : list (outcome (float64 * option error))) : list error :=
  flat_map (fun o => match o with Returns (_, Some err) => [err] | _ => [] end) l.

Definition panicsOf (l : list (outcome (float64 * option error))) : list string :=
  flat_map (fun o => match o with Panics msg => [msg] | _ => [] end) l.

(** [sum := 0.0; for ... { sum += temp }] over the temperatures of [l]. *)
Definition fsum (l : list float64) : float64 := fold_left PrimFloat.add l 0.

(** ** The sequential operation (lines 218-231)

    Beside the result, the providers that were called, in the order of the
    calls. *)
Fixpoint temperature_range (city : string) (len : nat) (rest : list weatherProvider.t)
    (sum : float64) : outcome (float64 * option error) * list weatherProvider.t :=
  match rest with
  | [] => (Returns (sum / float64_of_len len, None), [])
  | provider :: rest' =>
      match weatherProvider.call provider city with
      | Panics msg => (Panics msg, [provider])
      | Returns (_, Some err) => (Returns (0, Some err), [provider])
      | Returns (k, None) =>
          let (r, called) := temperature_range city len rest' (sum + k) in
          (r, provider :: called)
      end
  end.

Definition temperature (city : string) (providers : list weatherProvider.t)
    : outcome (float64 * option error) * list weatherProvider.t :=
  temperature_range city (List.length providers) providers 0.

#[local] Close Scope float_scope.

(** * The service (lines 13-48)

    What [main] sets up: the providers, with their keys from the
    environment, and the function that serves [/weather/]. *)

Module os.

(** The environment of the process; a variable that is not set reads as
    the empty string. *)
Class Env : Type := { Getenv : string -> string }.

End os.

Module strings.

(** [s] around the first byte [sep] in it. *)
Fixpoint Cut (s : string) (sep : ascii) : option (string * string) :=
  match s with
  | EmptyString => None
  | String c s' =>
      if Ascii.eqb c sep then Some (EmptyString, s')
      else match Cut s' sep with
           | Some (before, after) => Some (String c before, after)
           | None => None
           end
  end.

(** [strings.SplitN(s, sep, n)] for a separator of one byte and [n >= 0]:
    at most [n] pieces, the last of them the remainder, not split. *)
Fixpoint SplitN (s : string) (sep : ascii) (n : nat) : list string :=
  match n with
  | 0 => []
  | 1 => [s]
  | S n' =>
      match Cut s sep with
      | Some (before, after) => before :: SplitN after sep n'
      | None => [s]
      end
  end.

End strings.

(** [int(f)], with an [int] of 64 bits: the fraction is discarded.  The
    conversion of a value that an [int] cannot represent succeeds with a
    value that depends on the implementation: [None]. *)
Definition int (f : float64) : option Z :=
  match Prim2SF f with
  | S754_zero _ => Some 0%Z
  | S754_finite s m e =>
      let magnitude := (if 0 <=? e then Zpos m * 2 ^ e else Zpos m / 2 ^ (- e))%Z in
      let z := (if s then - magnitude else magnitude)%Z in
      if ((- 2 ^ 63 <=? z)%Z && (z <? 2 ^ 63)%Z)%bool then Some z else None
  | _ => None
  end.

(** What the function writes: [http.Error(w, err.Error(), 500)], or, with
    status 200, the JSON object of [city], [temp] and [took]. *)
Inductive reply : Set :=
| InternalServerError (err : error)
| Encoded (city : string) (temp : option Z) (took : string).

Definition decimal (n : nat) : string := NilZero.string_of_uint (Nat.to_uint n).

Section Service.

Context `{env : os.Env} `{client : http.Client} `{formatter : fmt.Formatter}.

(** Lines 14-21. *)
Definition mw : multiWeatherProvider.t :=
  [ weatherProvider.box {| openWeatherMap.apiKey := os.Getenv "OPEN_WEATHER_MAP_KEY" |};
    weatherProvider.box {| weatherUnderground.apiKey := os.Getenv "WEATHER_UNDERGROUND_KEY" |};
    weatherProvider.box {| darkSky.apiKey := os.Getenv "DARK_SKY_KEY";
                           darkSky.googleKey := os.Getenv "GOOGLE_GEOCODE_KEY" |} ].

(** Lines 25-41, for a request with the path [path], under the
    interleaving [sched] of the call of [mw.temperature]; [took] is what
    [time.Since(begin).String()] gives.  Indexing the pieces of the path
    out of range is a panic of the function. *)
Definition handler (path took : string) (sched : list action) : option (outcome reply) :=
  let parts := strings.SplitN path "/" 3 in
  match nth_error parts 2 with
  | None =>
      Some (Panics ("runtime error: index out of range [2] with length "
                    ++ decimal (List.length parts)))
  | Some city =>
      match multiWeatherProvider.temperature mw city sched with
      | None => None
      | Some (_, Some err) => Some (Returns (InternalServerError err))
      | Some (temp, None) => Some (Returns (Encoded city (int temp) took))
      end
  end.

End Service.

(** * Test doubles and fixtures *)

(** ** Test doubles *)

(** A provider that answers every city the same way. *)
Record stub : Type := { answer : outcome (float64 * option error) }.

#[export] Instance stub_provider : weatherProvider.impl stub :=
  {| weatherProvider.temperature := fun p _ => answer p |}.

Definition succeeding (k : float64) : weatherProvider.t :=
  weatherProvider.box {| answer := Returns (k, None) |}.
Definition failing (err : error) : weatherProvider.t :=
  weatherProvider.box {| answer := Returns (0%float, Some err) |}.
Definition panicking (msg : string) : weatherProvider.t :=
  weatherProvider.box {| answer := Panics msg |}.

(** A transport that answers every URL the same way. *)
Definition always (r : http.Response + string) : http.Client :=
  {| http.roundTrip := fun _ => r |}.

Definition ok (status : Z) (v : json.value) : http.Response + string :=
  inl {| http.StatusCode := status; http.body := http.Document v |}.

(** A transport that tells the geocoding service from the forecast service. *)
Definition routes (geocode forecast : http.Response + string) : http.Client :=
  {| http.roundTrip := fun url =>
       if String.prefix "https://maps.googleapis.com/" url then geocode else forecast |}.

(** A formatter that prints every number the same way. *)
Definition prints (text : string) : fmt.Formatter := {| fmt.Sprint := fun _ => text |}.

(** ** Fixtures *)

(** One provider that answers 273.15 K. *)
Definition freezing : multiWeatherProvider.t := [succeeding 273.15%float].

(** The state after [Collect; Return] with no provider. *)
Definition returnedNaN : state :=
  {| len_w := 0; caller := Returned (PrimFloat.nan, None);
     goroutines := []; temps := []; errs := [] |}.

(** Two providers: one answers 290 K, the other fails. *)
Definition timeout : error := UpstreamError "Get: net/http: request canceled (Client.Timeout exceeded)".
Definition oneDown : multiWeatherProvider.t := [succeeding 290%float; failing timeout].

(** The caller has returned the error while the first provider is still out. *)
Definition returnedEarly : state :=
  {| len_w := 2; caller := Returned (0%float, Some timeout);
     goroutines := [succeeding 290%float]; temps := []; errs := [] |}.

Definition hurried : list action := [Spawn; Spawn; Collect; Deliver 1; RecvErr].

(** Three providers whose answers add up differently in different orders. *)
Definition mild : multiWeatherProvider.t :=
  [succeeding 290.1%float; succeeding 290.2%float; succeeding 290.4%float].

(** The arrival orders 290.1, 290.2, 290.4 and 290.1, 290.4, 290.2. *)
Definition inOrder : list action :=
  [Spawn; Spawn; Spawn; Collect; Deliver 0; Deliver 0; Deliver 0;
   RecvTemp; RecvTemp; RecvTemp; Return].
Definition lastOvertakes : list action :=
  [Spawn; Spawn; Spawn; Collect; Deliver 0; Deliver 1; Deliver 0;
   RecvTemp; RecvTemp; RecvTemp; Return].

(** Two providers, and the two orders in which their answers can arrive. *)
Definition pair : multiWeatherProvider.t := [succeeding 290.1%float; succeeding 290.4%float].
Definition firstFirst : list action :=
  [Spawn; Spawn; Collect; Deliver 0; Deliver 0; RecvTemp; RecvTemp; Return].
Definition secondFirst : list action :=
  [Spawn; Spawn; Collect; Deliver 1; Deliver 0; RecvTemp; RecvTemp; Return].
(** The three providers of the scenario: 300 K, 310 K and 290 K. *)
Definition scenario : multiWeatherProvider.t :=
  [succeeding 300%float; succeeding 310%float; succeeding 290%float].

(** A reply of OpenWeatherMap to a request with a bad key: status 401 and a
    JSON body that describes the error. *)
Definition unauthorized : http.Client :=
  always (ok 401 (json.Object [("cod", json.Number (Some 401%float));
                               ("message", json.Str "Invalid API key.")])).

(** Replies as the three upstreams send them (cut down to a few members). *)
Definition london : json.value :=
  json.Object [("weather", json.Array []);
               ("main", json.Object [("temp", json.Number (Some 285.5%float));
                                     ("pressure", json.Number (Some 1012%float))]);
               ("name", json.Str "London")].

Definition observed : json.value :=
  json.Object [("response", json.Object [("version", json.Str "0.1")]);
               ("current_observation",
                json.Object [("weather", json.Str "Overcast");
                             ("temp_f", json.Number (Some 54.3%float));
                             ("temp_c", json.Number (Some 12.4%float))])].

Definition forecast : json.value :=
  json.Object [("latitude", json.Number (Some 51.5%float));
               ("currently", json.Object [("summary", json.Str "Drizzle");
                                          ("temperature", json.Number (Some 12.4%float))])].

Definition geocoded : json.value :=
  json.Object [("results",
                json.Array [json.Object
                  [("formatted_address", json.Str "London, UK");
                   ("geometry",
                    json.Object [("location",
                                  json.Object [("lat", json.Number (Some 51.5%float));
                                               ("lng", json.Number (Some (-0.125)%float))])])]]);
               ("status", json.Str "OK")].

Definition sky : darkSky.t := {| darkSky.apiKey := "k"; darkSky.googleKey := "g" |}.

(** What the geocoding service answers, with status 200, for a place it does
    not know. *)
Definition zeroResults : json.value :=
  json.Object [("results", json.Array []); ("status", json.Str "ZERO_RESULTS")].

(** The body of a reply that reports an error. *)
Definition apology : json.value :=
  json.Object [("cod", json.Number (Some 401%float)); ("message", json.Str "Invalid API key.")].

(** Two providers that answer, and a third that panics. *)
Definition oneBroken : multiWeatherProvider.t :=
  [succeeding 290%float; succeeding 291%float;
   panicking "runtime error: index out of range [0] with length 0"].

(** What the geocoding service answers, also with status 200, to a key it
    refuses. *)
Definition requestDenied : json.value :=
  json.Object [("error_message", json.Str "The provided API key is invalid.");
               ("results", json.Array []);
               ("status", json.Str "REQUEST_DENIED")].

(** A temperature sent as a string; a list where an object is expected. *)
Definition quoted : json.value :=
  json.Object [("main", json.Object [("temp", json.Str "281.5")]);
               ("current_observation", json.Object [("temp_c", json.Str "8.4")]);
               ("currently", json.Object [("temperature", json.Str "8.4")])].
Definition listed : json.value := json.Array [json.Number (Some 281.5%float)].

(** The four upstreams, each with a reply of its own; keys that are set. *)
Definition upstreams : http.Client :=
  {| http.roundTrip := fun url =>
       if String.prefix "http://api.openweathermap.org/" url then ok 200 london
       else if String.prefix "http://api.wunderground.com/" url then ok 200 observed
       else if String.prefix "https://maps.googleapis.com/" url then ok 200 geocoded
       else ok 200 forecast |}.

Definition keys : os.Env := {| os.Getenv := fun name => "key-of-" ++ name |}.

(** The geocoding service does not know the place; the others answer. *)
Definition nowhere : http.Client :=
  {| http.roundTrip := fun url =>
       if String.prefix "https://maps.googleapis.com/" url then ok 200 zeroResults
       else @http.roundTrip upstreams url |}.

(** Three providers whose answers have the mean 253.15 K, which is -4 F. *)
Definition chilly : multiWeatherProvider.t :=
  [succeeding 254.2%float; succeeding 259.35%float; succeeding 245.9%float].

(** A body that is a JSON string. *)
Definition plain : json.value := json.Str "Service Unavailable".

(** * The vocabulary of the properties *)

(** ** Interleavings *)

(** What the providers of a list answer for [city], in the order of the list. *)
Definition outcomes (city : string) (ps : list weatherProvider.t)
    : list (outcome (float64 * option error)) :=
  map (fun p => weatherProvider.call p city) ps.

(** Lines 206-212 as one expression. *)
Definition reported (sum : float64) (n : nat) : float64 :=
  ((sum / float64_of_len n - 273.15) * 1.8 + 32)%float.

(** The providers the spawning loop has not reached yet. *)
Definition unspawned (s : state) : list weatherProvider.t :=
  match caller s with
  | Spawning rest => rest
  | _ => []
  end.

(** Every step uses up some of this. *)
Definition fuel (s : state) : nat :=
  List.length (goroutines s) +
  match caller s with
  | Spawning rest => 2 * List.length rest + len_w s + 2
  | Collecting i _ => len_w s - i + 1
  | _ => 0
  end.

(** What holds of a state that has not crashed, [d] being the outcomes that
    have arrived so far, oldest first. *)
Record Inv (city : string) (w : multiWeatherProvider.t)
    (d : list (outcome (float64 * option error))) (s : state) : Prop := {
  inv_len : len_w s = List.length w;
  inv_perm :
    Permutation (d ++ outcomes city (goroutines s) ++ outcomes city (unspawned s))
                (outcomes city w);
  inv_panics : panicsOf d = [];
  inv_caller :
    match caller s with
    | Spawning _ => temps s = tempsOf d /\ errs s = errsOf d
    | Collecting i sum =>
        i <= List.length (tempsOf d) /\ temps s = skipn i (tempsOf d) /\
        sum = fsum (firstn i (tempsOf d)) /\ errs s = errsOf d
    | Returned r =>
        (List.length w <= List.length (tempsOf d) /\
         r = (reported (fsum (firstn (List.length w) (tempsOf d))) (List.length w), None)) \/
        (exists e, r = (0%float, Some e) /\ hd_error (errsOf d) = Some e)
    | Crashed _ => False
    end
}.

(** A crash is the panic of one of the providers. *)
Definition Sound (city : string) (w : multiWeatherProvider.t)
    (d : list (outcome (float64 * option error))) (s : state) : Prop :=
  Inv city w d s \/ exists msg, caller s = Crashed msg /\ In (Panics msg) (outcomes city w).

(** The interleaving [sched], which has led to [s], is one of a call that
    terminates: it is no longer than [3 * len(w) + 2] steps, it is not stuck
    as long as the caller has not returned, and it can be continued to a
    state in which the caller has returned. *)
Definition terminates (city : string) (w : multiWeatherProvider.t)
    (sched : list action) (s : state) : Prop :=
  List.length sched <= 3 * List.length w + 2 /\
  ((forall r, caller s <> Returned r) -> exists a s', step city a s = Some s') /\
  exists sched' s' r,
    exec city (sched ++ sched') (init w) = Some s' /\ caller s' = Returned r.

(** ** Documents *)

(** No member of an object is named [key], up to case. *)
Definition lacksKey (key : string) (members : list (string * json.value)) : bool :=
  forallb (fun m => negb (json.equalFold key (fst m))) members.

(** A document is an object (or [null]) that has no number at [outer.inner]:
    what is named [outer] in it is an object (or [null]) without [inner]. *)
Definition lacks (outer inner : string) (v : json.value) : bool :=
  match v with
  | json.Null => true
  | json.Object members =>
      forallb (fun m => if json.equalFold outer (fst m)
                        then match snd m with
                             | json.Null => true
                             | json.Object inside => lacksKey inner inside
                             | _ => false
                             end
                        else true) members
  | _ => false
  end.

(** A document is an object that has the number [x] at [outer.inner], and
    names [outer] and, in it, [inner] only once. *)
Definition carries (outer inner : string) (x : float64) (v : json.value) : Prop :=
  exists before k after inside_before k' inside_after,
    v = json.Object (before ++ (k, json.Object
                                     (inside_before ++ (k', json.Number (Some x)) :: inside_after))
                            :: after)%list /\
    json.equalFold outer k = true /\ lacksKey outer before = true /\ lacksKey outer after = true /\
    json.equalFold inner k' = true /\ lacksKey inner inside_before = true /\
    lacksKey inner inside_after = true.

(** ** Failures *)

(** The ways in which fetching [url] and decoding the body can fail: the
    transport fails, or the body received does not decode.  The status of the
    response plays no part. *)
Inductive failure `{http.Client} {A} (url : string) (shape : json.decoder A) (zero : A)
  : error -> Prop :=
| upstream (msg : string) :
    http.roundTrip url = inr msg -> failure url shape zero (UpstreamError msg)
| undecodable (resp : http.Response) (d : A) (msg : string) :
    http.roundTrip url = inl resp ->
    Decode shape (http.body resp) zero = (d, Some (DecodeError msg)) ->
    failure url shape zero (DecodeError msg).

(** What fetching and decoding gives: the error of the one or of the other,
    or the decoded value. *)
Definition fetch `{http.Client} {A} (url : string) (shape : json.decoder A) (zero : A)
    : A + error :=
  match http.Get url with
  | inr err => inr err
  | inl resp =>
      match Decode shape (http.body resp) zero with
      | (_, Some err) => inr err
      | (d, None) => inl d
      end
  end.

(** No error, or a decoding error. *)
Definition decodes (o : option error) : Prop :=
  match o with
  | Some (DecodeError _) | None => True
  | Some _ => False
  end.

(** A decoder that reports no other kind of error. *)
Definition wellKinded {A} (d : json.decoder A) : Prop :=
  forall cur v, decodes (snd (d cur v)).

(** ** binary64 *)

(** [0.0 + x] is [x], except that it turns a negative zero into a positive one. *)
Definition unsigned_zero (x : spec_float) : spec_float :=
  match x with
  | S754_zero _ => S754_zero false
  | _ => x
  end.

(** ** More about interleavings *)

(** There is room in the channels for what the goroutines still out, and the
    ones still to be spawned, will send. *)
Definition roomy (s : state) : Prop :=
  List.length (temps s) + List.length (errs s)
  + List.length (goroutines s) + List.length (unspawned s) <= len_w s.

(** What a call of [n] providers returns when the outcomes [arrived] have
    arrived in this order: the first error among them if there is one, the
    conversion of the mean of the temperatures otherwise. *)
Definition verdict (n : nat) (arrived : list (outcome (float64 * option error)))
    : float64 * option error :=
  match errsOf arrived with
  | e :: _ => (0%float, Some e)
  | [] => (reported (fsum (tempsOf arrived)) n, None)
  end.

(** The interleaving in which every goroutine is spawned, then the call of
    the [k]th provider comes back, alone, and the caller receives its
    error. *)
Definition firstBack (n k : nat) : list action :=
  (repeat Spawn n ++ [Collect; Deliver k; RecvErr])%list.

(** The interleaving in which every goroutine is spawned, the calls come
    back in the order of the providers, and the caller then receives the [n]
    temperatures. *)
Definition inDeclarationOrder (n : nat) : list action :=
  (repeat Spawn n ++ [Collect] ++ repeat (Deliver 0) n ++ repeat RecvTemp n ++ [Return])%list.

(** ** More about documents *)

(** A geocoding document without results: [null], or an object in which
    whatever is named [Results] is [null] or the empty array. *)
Definition noResults (v : json.value) : bool :=
  match v with
  | json.Null => true
  | json.Object members =>
      forallb (fun m => if json.equalFold "Results" (fst m)
                        then match snd m with
                             | json.Null | json.Array [] => true
                             | _ => false
                             end
                        else true) members
  | _ => false
  end.

(** A value that is no number for a [float64]: not a number in range, and
    not [null]. *)
Definition mistyped (v : json.value) : bool :=
  match v with
  | json.Null | json.Number (Some _) => false
  | _ => true
  end.

(** A value that a struct with a field [key] does not take without an
    error: neither an object nor [null], or an object in which something
    named [key] is [bad] for that field. *)
Definition misfit (key : string) (bad : json.value -> bool) (v : json.value) : bool :=
  match v with
  | json.Null => false
  | json.Object members =>
      existsb (fun m => json.equalFold key (fst m) && bad (snd m))%bool members
  | _ => true
  end.

(** A document that has something else than a number or an object where
    [outer.inner] expects them. *)
Definition misfits (outer inner : string) (v : json.value) : bool :=
  misfit outer (misfit inner mistyped) v.

(** * Properties *)

(** ** binary64 addition *)

Lemma SFadd_comm (prec emax : Z) (x y : spec_float) :
  SFadd prec emax x y = SFadd prec emax y x.
Proof.
  destruct x as [sx|sx| |sx mx ex], y as [sy|sy| |sy my ey]; try reflexivity;
    try (destruct sx, sy; reflexivity).
  unfold SFadd. rewrite (Z.min_comm ex ey). f_equal. apply Z.add_comm.
Qed.

Lemma float64_add_comm (x y : float64) : (x + y = y + x)%float.
Proof.
  apply Prim2SF_inj. rewrite !add_spec. apply SFadd_comm.
Qed.

Lemma float64_zero_add (x : float64) : Prim2SF (0 + x)%float = unsigned_zero (Prim2SF x).
Proof.
  rewrite add_spec. change (Prim2SF 0%float) with (S754_zero false).
  destruct (Prim2SF x) as [[]|[]| |]; reflexivity.
Qed.

Lemma SF64add_unsigned_zero_swap (x y : spec_float) :
  SF64add (unsigned_zero x) y = SF64add (unsigned_zero y) x.
Proof.
  unfold SF64add.
  destruct x as [sx|sx| |sx mx ex], y as [sy|sy| |sy my ey]; cbn [unsigned_zero];
    try reflexivity; try (destruct sx; reflexivity); try (destruct sy; reflexivity);
    try (destruct sx, sy; reflexivity).
  apply SFadd_comm.
Qed.

Lemma fsum_pair_swap (a b : float64) : fsum [a; b] = fsum [b; a].
Proof.
  unfold fsum. cbn [fold_left].
  apply Prim2SF_inj.
  rewrite (add_spec (0 + a)%float b), (add_spec (0 + b)%float a), !float64_zero_add.
  apply SF64add_unsigned_zero_swap.
Qed.

Lemma fsum_snoc (l : list float64) (x : float64) : fsum (l ++ [x]) = (fsum l + x)%float.
Proof. unfold fsum. now rewrite fold_left_app. Qed.

Lemma float64_neq (x y : float64) : PrimFloat.Leibniz.eqb x y = false -> x <> y.
Proof.
  intros H E. subst y.
  assert (T : PrimFloat.Leibniz.eqb x x = true) by now apply FloatAxioms.Leibniz.eqb_spec.
  congruence.
Qed.

(** ** Lists of outcomes *)

Lemma tempsOf_app (l l' : list (outcome (float64 * option error))) :
  tempsOf (l ++ l') = (tempsOf l ++ tempsOf l')%list.
Proof. apply flat_map_app. Qed.

Lemma errsOf_app (l l' : list (outcome (float64 * option error))) :
  errsOf (l ++ l') = (errsOf l ++ errsOf l')%list.
Proof. apply flat_map_app. Qed.

Lemma panicsOf_app (l l' : list (outcome (float64 * option error))) :
  panicsOf (l ++ l') = (panicsOf l ++ panicsOf l')%list.
Proof. apply flat_map_app. Qed.

Lemma outcome_count (l : list (outcome (float64 * option error))) :
  List.length (tempsOf l) + List.length (errsOf l) + List.length (panicsOf l) = List.length l.
Proof.
  unfold tempsOf, errsOf, panicsOf.
  induction l as [|[[k [e|]]|msg] l IH]; cbn in *; lia.
Qed.

Lemma tempsOf_succeed (ts : list float64) :
  tempsOf (map (fun k => Returns (k, None)) ts) = ts.
Proof. unfold tempsOf. induction ts as [|k ts IH]; cbn in *; congruence. Qed.

Lemma panicsOf_succeed (ts : list float64) :
  panicsOf (map (fun k => Returns (k, None)) ts) = [].
Proof. unfold panicsOf. induction ts as [|k ts IH]; cbn in *; congruence. Qed.

Lemma In_errsOf (e : error) (l : list (outcome (float64 * option error))) :
  In e (errsOf l) -> exists k, In (Returns (k, Some e)) l.
Proof.
  induction l as [|[[k [e'|]]|msg] l IH]; cbn; intros H; try tauto.
  - destruct H as [->|H]; [exists k; now left|].
    destruct (IH H) as [k' Hk']. exists k'. now right.
  - destruct (IH H) as [k' Hk']. exists k'. now right.
  - destruct (IH H) as [k' Hk']. exists k'. now right.
Qed.

Lemma In_panicsOf (msg : string) (l : list (outcome (float64 * option error))) :
  In (Panics msg) l -> In msg (panicsOf l).
Proof.
  induction l as [|[[k [e'|]]|msg'] l IH]; cbn; intros H; try tauto.
  - destruct H as [H|H]; [discriminate|auto].
  - destruct H as [H|H]; [discriminate|auto].
  - destruct H as [H|H]; [injection H as ->; now left|right; auto].
Qed.

Lemma In_errsOf_intro (k : float64) (e : error) (l : list (outcome (float64 * option error))) :
  In (Returns (k, Some e)) l -> In e (errsOf l).
Proof.
  induction l as [|[[k' [e'|]]|msg'] l IH]; cbn; intros H; try tauto.
  - destruct H as [H|H]; [injection H as _ ->; now left|right; auto].
  - destruct H as [H|H]; [discriminate|auto].
  - destruct H as [H|H]; [discriminate|auto].
Qed.

Lemma remove_nth_Permutation {A} (l : list A) (k : nat) (x : A) :
  nth_error l k = Some x ->
  Permutation (x :: firstn k l ++ skipn (S k) l) l.
Proof.
  revert k. induction l as [|y l IH]; intros [|k] H; try discriminate.
  - injection H as ->. reflexivity.
  - cbn [nth_error] in H. cbn [firstn skipn app].
    rewrite perm_swap. constructor. now apply IH.
Qed.

Lemma remove_nth_length {A} (l : list A) (k : nat) (x : A) :
  nth_error l k = Some x ->
  S (List.length (firstn k l ++ skipn (S k) l)) = List.length l.
Proof.
  intros H. apply remove_nth_Permutation in H.
  apply Permutation_length in H. exact H.
Qed.

Lemma hd_error_app_Some {A} (l l' : list A) (x : A) :
  hd_error l = Some x -> hd_error (l ++ l') = Some x.
Proof. destruct l; [discriminate|auto]. Qed.

(** ** Runs of the aggregator *)

Section Runs.

Variable city : string.

Variable w : multiWeatherProvider.t.

Lemma Inv_init : Inv city w [] (init w).
Proof.
  split; cbn; auto.
Qed.

Lemma deliver_Permutation (d rest : list (outcome (float64 * option error)))
    (G : list weatherProvider.t) (k : nat) (p : weatherProvider.t) :
  nth_error G k = Some p ->
  Permutation (d ++ outcomes city G ++ rest) (outcomes city w) ->
  Permutation ((d ++ [weatherProvider.call p city])
                 ++ outcomes city (firstn k G ++ skipn (S k) G) ++ rest) (outcomes city w).
Proof.
  intros Hk HP. rewrite <- HP. rewrite <- app_assoc. apply Permutation_app_head.
  cbn [app]. change (weatherProvider.call p city :: outcomes city (firstn k G ++ skipn (S k) G))
    with (outcomes city (p :: firstn k G ++ skipn (S k) G)).
  rewrite app_comm_cons. apply Permutation_app_tail.
  exact (Permutation_map (fun q => weatherProvider.call q city)
           (remove_nth_Permutation _ _ _ Hk)).
Qed.

Lemma Inv_arrived_le (d : list (outcome (float64 * option error))) (s : state) :
  Inv city w d s -> List.length d + List.length (goroutines s) + List.length (unspawned s) = List.length w.
Proof.
  intros [_ HP _ _]. apply Permutation_length in HP.
  unfold outcomes in HP. rewrite !length_app, !length_map in HP. lia.
Qed.

Lemma skipn_snoc {A} (i : nat) (l : list A) (x : A) :
  i <= List.length l -> skipn i (l ++ [x]) = (skipn i l ++ [x])%list.
Proof.
  intros H. rewrite skipn_app. replace (i - List.length l) with 0 by lia. reflexivity.
Qed.

Lemma firstn_snoc {A} (i : nat) (l : list A) (x : A) :
  i <= List.length l -> firstn i (l ++ [x]) = firstn i l.
Proof.
  intros H. rewrite firstn_app. replace (i - List.length l) with 0 by lia.
  cbn. now rewrite app_nil_r.
Qed.

Lemma firstn_skipn_head {A} (i : nat) (l rest : list A) (x : A) :
  skipn i l = x :: rest ->
  firstn (S i) l = (firstn i l ++ [x])%list /\ skipn (S i) l = rest /\ S i <= List.length l.
Proof.
  revert l. induction i as [|i IH]; intros [|y l] H; try discriminate.
  - cbn in H. injection H as -> ->. cbn. repeat split; lia.
  - cbn [skipn] in H. destruct (IH _ H) as (H1 & H2 & H3).
    repeat split.
    + change (y :: firstn (S i) l = y :: (firstn i l ++ [x])%list). now f_equal.
    + exact H2.
    + cbn [List.length]. lia.
Qed.

Lemma deliver_Sound (d : list (outcome (float64 * option error))) (s s' : state) (k : nat) :
  Inv city w d s -> deliver city s k = Some s' ->
  Sound city w (d ++ arrival city (Deliver k) s) s'.
Proof.
  intros [Hlen HP Hpan Hmain] Hs. unfold deliver in Hs. cbn [arrival].
  destruct (nth_error (goroutines s) k) as [p|] eqn:Hk; [|discriminate].
  pose proof (deliver_Permutation d (outcomes city (unspawned s)) _ _ _ Hk HP) as HP'.
  destruct (weatherProvider.call p city) as [[t [e|]]|msg] eqn:Hc.
  - destruct (Nat.ltb (List.length (errs s)) (len_w s)); [|discriminate].
    injection Hs as <-. left. split; cbn; auto.
    + rewrite panicsOf_app, Hpan. reflexivity.
    + rewrite tempsOf_app, errsOf_app. cbn. rewrite app_nil_r.
      destruct (caller s) as [rest|i sum|r|msg]; auto.
      * destruct Hmain as [-> ->]. auto.
      * destruct Hmain as (Hi & Ht & Hsum & ->). auto.
      * destruct Hmain as [H|(e' & -> & He')]; [left; exact H|right].
        exists e'. split; auto. now apply hd_error_app_Some.
  - destruct (Nat.ltb (List.length (temps s)) (len_w s)); [|discriminate].
    injection Hs as <-. left. split; cbn; auto.
    + rewrite panicsOf_app, Hpan. reflexivity.
    + rewrite tempsOf_app, errsOf_app. cbn. rewrite app_nil_r.
      destruct (caller s) as [rest|i sum|r|msg]; auto.
      * destruct Hmain as [-> ->]. auto.
      * destruct Hmain as (Hi & Ht & Hsum & ->). rewrite length_app. cbn.
        rewrite skipn_snoc, firstn_snoc by lia. repeat split; auto; try lia.
        now rewrite Ht.
      * destruct Hmain as [[Hn ->]|H]; [left|right; exact H].
        rewrite length_app, firstn_snoc by lia. split; [lia|reflexivity].
  - injection Hs as <-. right. exists msg. cbn. split; auto.
    eapply Permutation_in; [exact HP|]. apply in_or_app. right.
    apply in_or_app. left. rewrite <- Hc.
    apply (in_map (fun q => weatherProvider.call q city)).
    eapply nth_error_In. exact Hk.
Qed.

Lemma step_Sound (d : list (outcome (float64 * option error))) (s s' : state) (a : action) :
  Inv city w d s -> step city a s = Some s' ->
  Sound city w (d ++ arrival city a s) s'.
Proof.
  intros HI Hs. unfold step in Hs.
  destruct a;
    try (destruct (caller s) as [[|? ?]|? ?|?|?] eqn:Hm; cbv beta iota in Hs;
         try discriminate; eapply deliver_Sound; eassumption).
  all: cbn [arrival]; rewrite app_nil_r; left.
  all: destruct HI as [Hlen HP Hpan Hmain]; unfold unspawned in HP.
  - (* Spawn *)
    destruct (caller s) as [[|p rest]|i sum|r|msg] eqn:Hm; cbv beta iota in Hs; try discriminate.
    injection Hs as <-. split; cbn; auto.
    unfold outcomes in *. rewrite map_app. cbn [map app] in *.
    rewrite <- app_assoc. exact HP.
  - (* Collect *)
    destruct (caller s) as [[|p rest]|i sum|r|msg] eqn:Hm; cbv beta iota in Hs; try discriminate.
    injection Hs as <-. destruct Hmain as [Ht He].
    split; cbn; auto. repeat split; auto. lia.
  - (* RecvTemp *)
    destruct (caller s) as [[|p rest]|i sum|r|msg] eqn:Hm; cbv beta iota in Hs; try discriminate.
    destruct (Nat.ltb i (len_w s)); [|discriminate].
    destruct (temps s) as [|temp rest] eqn:Ht; [discriminate|].
    injection Hs as <-. destruct Hmain as (Hi & Hts & Hsum & He).
    symmetry in Hts. destruct (firstn_skipn_head _ _ _ _ Hts) as (H1 & H2 & H3).
    split; unfold unspawned; cbn [len_w goroutines temps errs caller]; auto.
    repeat split; auto.
    rewrite H1, fsum_snoc. now rewrite Hsum.
  - (* RecvErr *)
    destruct (caller s) as [[|p rest]|i sum|r|msg] eqn:Hm; cbv beta iota in Hs; try discriminate.
    destruct (Nat.ltb i (len_w s)); [|discriminate].
    destruct (errs s) as [|err rest] eqn:He; [discriminate|].
    injection Hs as <-. destruct Hmain as (Hi & Hts & Hsum & He').
    split; unfold unspawned; cbn [len_w goroutines temps errs caller]; auto.
    right. exists err. split; auto. now rewrite <- He'.
  - (* Return *)
    destruct (caller s) as [[|p rest]|i sum|r|msg] eqn:Hm; cbv beta iota in Hs; try discriminate.
    destruct (Nat.ltb i (len_w s)) eqn:Hlt; [discriminate|].
    injection Hs as <-. destruct Hmain as (Hi & Hts & Hsum & He').
    apply Nat.ltb_ge in Hlt.
    assert (Hd : List.length (tempsOf d) <= List.length w).
    { apply Permutation_length in HP. rewrite !length_app in HP.
      unfold outcomes in HP at 3. rewrite length_map in HP.
      pose proof (outcome_count d). lia. }
    split; unfold unspawned; cbn [len_w goroutines temps errs caller]; auto.
    left. split; [lia|].
    assert (i = List.length w) as -> by lia.
    rewrite Hlen, Hsum. reflexivity.
Qed.

Lemma exec_Sound (sched : list action) (d : list (outcome (float64 * option error)))
    (s s' : state) :
  Sound city w d s -> exec city sched s = Some s' ->
  Sound city w (d ++ arrivals city sched s) s'.
Proof.
  revert d s. induction sched as [|a sched IH]; intros d s HS He; cbn in *.
  - injection He as <-. now rewrite app_nil_r.
  - destruct (step city a s) as [s1|] eqn:Hs; [|discriminate].
    rewrite app_assoc. apply IH; auto.
    destruct HS as [HI|(msg & Hm & _)].
    + eapply step_Sound; eauto.
    + unfold step in Hs. rewrite Hm in Hs. discriminate.
Qed.

(** Every state a schedule reaches from the start is sound for the outcomes
    that have arrived on the way. *)
Lemma reachable_Sound (sched : list action) (s : state) :
  exec city sched (init w) = Some s -> Sound city w (arrivals city sched (init w)) s.
Proof.
  intros He. apply (exec_Sound sched [] (init w) s); auto.
  left. apply Inv_init.
Qed.

(** *** Termination: every step uses fuel *)

Lemma deliver_fuel (s s' : state) (k : nat) :
  deliver city s k = Some s' ->
  S (List.length (goroutines s')) = List.length (goroutines s) /\ len_w s' = len_w s /\
  (caller s' = caller s \/ exists msg, caller s' = Crashed msg).
Proof.
  unfold deliver. destruct (nth_error (goroutines s) k) as [p|] eqn:Hk; [|discriminate].
  apply remove_nth_length in Hk.
  destruct (weatherProvider.call p city) as [[t [e|]]|msg].
  - destruct (Nat.ltb _ _); [|discriminate]. intros [= <-]. cbn. auto.
  - destruct (Nat.ltb _ _); [|discriminate]. intros [= <-]. cbn. auto.
  - intros [= <-]. cbn. eauto.
Qed.

Lemma step_fuel (a : action) (s s' : state) :
  step city a s = Some s' -> fuel s' < fuel s.
Proof.
  unfold step, fuel. intros Hs.
  destruct a.
  6:{ destruct (caller s) as [[|? ?]|? ?|?|?] eqn:Hm; cbv beta iota in Hs; try discriminate;
      apply deliver_fuel in Hs; destruct Hs as (Hg & Hl & [Hm'|[msg Hm']]);
      rewrite ?Hm', ?Hl, ?Hm; cbv beta iota; cbn [List.length]; lia. }
  all: destruct (caller s) as [[|p rest]|i sum|r|msg] eqn:Hm; cbv beta iota in Hs;
    try discriminate.
  - injection Hs as <-. cbn [caller goroutines len_w]. rewrite length_app. cbn. lia.
  - injection Hs as <-. cbn. lia.
  - destruct (Nat.ltb i (len_w s)) eqn:Hlt; [|discriminate].
    apply Nat.ltb_lt in Hlt.
    destruct (temps s); [discriminate|]. injection Hs as <-. cbn. lia.
  - destruct (Nat.ltb i (len_w s)) eqn:Hlt; [|discriminate].
    destruct (errs s); [discriminate|]. injection Hs as <-. cbn. lia.
  - destruct (Nat.ltb i (len_w s)) eqn:Hlt; [discriminate|].
    injection Hs as <-. cbn. lia.
Qed.

Lemma exec_fuel (sched : list action) (s s' : state) :
  exec city sched s = Some s' -> List.length sched + fuel s' <= fuel s.
Proof.
  revert s. induction sched as [|a sched IH]; intros s He; cbn in *.
  - injection He as <-. lia.
  - destruct (step city a s) as [s1|] eqn:Hs; [|discriminate].
    apply step_fuel in Hs. apply IH in He. lia.
Qed.

Lemma fuel_init (ps : multiWeatherProvider.t) : fuel (init ps) = 3 * List.length ps + 2.
Proof. unfold fuel, init. cbn. lia. Qed.

(** No schedule is longer than [3 * len(w) + 2] actions. *)
Lemma exec_bounded (ps : multiWeatherProvider.t) (sched : list action) (s : state) :
  exec city sched (init ps) = Some s -> List.length sched <= 3 * List.length ps + 2.
Proof.
  intros He. apply exec_fuel in He. rewrite fuel_init in He. lia.
Qed.

(** *** Progress: a sound state where the caller has not returned can move *)

Lemma Inv_progress (d : list (outcome (float64 * option error))) (s : state) :
  Inv city w d s -> (forall r, caller s <> Returned r) ->
  exists a s', step city a s = Some s'.
Proof.
  intros HI Hr. pose proof (Inv_arrived_le d s HI) as Hcount.
  destruct HI as [Hlen HP Hpan Hmain]. unfold step, unspawned in *.
  destruct (caller s) as [[|p rest]|i sum|r|msg] eqn:Hm.
  - exists Collect. eexists. reflexivity.
  - exists Spawn. eexists. reflexivity.
  - destruct Hmain as (Hi & Hts & Hsum & He).
    destruct (Nat.ltb i (len_w s)) eqn:Hlt.
    + destruct (temps s) as [|temp ts] eqn:Ht.
      * destruct (errs s) as [|err es] eqn:Hes.
        -- apply Nat.ltb_lt in Hlt.
           assert (Hl : List.length (tempsOf d) = i).
           { assert (H0 : List.length (skipn i (tempsOf d)) = 0) by now rewrite <- Hts.
             rewrite length_skipn in H0. lia. }
           pose proof (outcome_count d) as Hc.
           rewrite <- He, Hpan, Hl in Hc. cbn in Hc, Hcount.
           destruct (goroutines s) as [|g G] eqn:HG; [cbn in Hcount; lia|].
           exists (Deliver 0). cbv beta iota. unfold deliver. rewrite HG, Ht, Hes. cbn.
           destruct (weatherProvider.call g city) as [[t [e|]]|msg].
           ++ destruct (len_w s); [lia|]. eexists. reflexivity.
           ++ destruct (len_w s); [lia|]. eexists. reflexivity.
           ++ eexists. reflexivity.
        -- exists RecvErr. cbv beta iota. rewrite ?Hlt, ?Ht, ?Hes. eexists. reflexivity.
      * exists RecvTemp. cbv beta iota. rewrite ?Hlt, ?Ht, ?Hes. eexists. reflexivity.
    + exists Return. cbv beta iota. rewrite ?Hlt, ?Ht, ?Hes. eexists. reflexivity.
  - exfalso. now apply (Hr r).
  - contradiction.
Qed.

(** *** What a run returns *)

Lemma reachable_Inv (sched : list action) (s : state) :
  panicsOf (outcomes city w) = [] ->
  exec city sched (init w) = Some s -> Inv city w (arrivals city sched (init w)) s.
Proof.
  intros Hp He. destruct (reachable_Sound sched s He) as [HI|(msg & _ & Hin)]; auto.
  apply In_panicsOf in Hin. rewrite Hp in Hin. contradiction.
Qed.

Lemma reachable_not_crashed (sched : list action) (s : state) :
  panicsOf (outcomes city w) = [] ->
  exec city sched (init w) = Some s -> forall msg, caller s <> Crashed msg.
Proof.
  intros Hp He msg Hm. destruct (reachable_Inv sched s Hp He) as [_ _ _ Hmain].
  now rewrite Hm in Hmain.
Qed.

Lemma reachable_progress (sched : list action) (s : state) :
  exec city sched (init w) = Some s ->
  (forall r, caller s <> Returned r) -> (forall msg, caller s <> Crashed msg) ->
  exists a s', step city a s = Some s'.
Proof.
  intros He Hr Hc. destruct (reachable_Sound sched s He) as [HI|(msg & Hm & _)].
  - eapply Inv_progress; eauto.
  - exfalso. now apply (Hc msg).
Qed.

Lemma Inv_tempsOf_le (d : list (outcome (float64 * option error))) (s : state) :
  Inv city w d s ->
  List.length (tempsOf d) + List.length (errsOf (outcomes city w)) <= List.length w.
Proof.
  intros [_ HP _ _].
  pose proof (Permutation_length (Permutation_flat_map
    (fun o : outcome (float64 * option error) =>
       match o with Returns (k, None) => [k] | _ => [] end) HP)) as HT.
  fold (tempsOf (d ++ outcomes city (goroutines s) ++ outcomes city (unspawned s))) in HT.
  fold (tempsOf (outcomes city w)) in HT.
  rewrite tempsOf_app, length_app in HT.
  pose proof (outcome_count (outcomes city w)) as Hc.
  unfold outcomes in Hc at 4. rewrite length_map in Hc. lia.
Qed.

(** When every provider succeeds, the caller returns the conversion of the
    mean of the temperatures, summed in the order of their arrival. *)
Lemma returned_all_succeed (ts : list float64) (sched : list action) (s : state)
    (r : float64 * option error) :
  outcomes city w = map (fun k => Returns (k, None)) ts ->
  exec city sched (init w) = Some s -> caller s = Returned r ->
  Permutation (tempsOf (arrivals city sched (init w))) ts /\
  r = (reported (fsum (tempsOf (arrivals city sched (init w)))) (List.length w), None).
Proof.
  intros Hw He Hm.
  assert (Hp : panicsOf (outcomes city w) = []) by (rewrite Hw; apply panicsOf_succeed).
  pose proof (reachable_Inv sched s Hp He) as HI.
  set (d := arrivals city sched (init w)) in *.
  pose proof (Inv_arrived_le d s HI) as Hcount.
  destruct HI as [Hlen HP Hpan Hmain]. rewrite Hm in Hmain.
  destruct Hmain as [[Hn ->]|(e & -> & He')].
  - pose proof (outcome_count d) as Hc.
    assert (HG : goroutines s = []) by (destruct (goroutines s); [auto|cbn in Hcount; lia]).
    assert (HU : unspawned s = []) by (unfold unspawned; now rewrite Hm).
    rewrite HG, HU in HP. cbn in HP. rewrite app_nil_r in HP.
    assert (HT : Permutation (tempsOf d) ts).
    { rewrite <- (tempsOf_succeed ts), <- Hw. apply Permutation_flat_map. exact HP. }
    split; [exact HT|].
    rewrite firstn_all2; [reflexivity|]. lia.
  - exfalso.
    assert (Hin : In e (errsOf d)) by (destruct (errsOf d); [discriminate|injection He' as ->; now left]).
    apply In_errsOf in Hin. destruct Hin as [k Hin].
    assert (Hin' : In (Returns (k, Some e)) (outcomes city w)).
    { eapply Permutation_in; [exact HP|]. apply in_or_app. now left. }
    rewrite Hw in Hin'. apply in_map_iff in Hin'. destruct Hin' as (k' & Hk' & _). discriminate.
Qed.

(** When some provider fails, the caller returns the error that arrived
    first, as the provider returned it, and the zero temperature. *)
Lemma returned_some_fail (sched : list action) (s : state) (r : float64 * option error) :
  errsOf (outcomes city w) <> [] ->
  exec city sched (init w) = Some s -> caller s = Returned r ->
  exists e, r = (0%float, Some e) /\
            hd_error (errsOf (arrivals city sched (init w))) = Some e /\
            exists p k, In p w /\ weatherProvider.call p city = Returns (k, Some e).
Proof.
  intros Hf He Hm.
  destruct (reachable_Sound sched s He) as [HI|(msg & Hm' & _)]; [|congruence].
  set (d := arrivals city sched (init w)) in *.
  pose proof (Inv_tempsOf_le d s HI) as Hle.
  destruct HI as [Hlen HP Hpan Hmain]. rewrite Hm in Hmain.
  destruct Hmain as [[Hn _]|(e & -> & He')].
  - exfalso. destruct (errsOf (outcomes city w)); [congruence|cbn in Hle; lia].
  - exists e. repeat split; auto.
    assert (Hin : In e (errsOf d)) by (destruct (errsOf d); [discriminate|injection He' as ->; now left]).
    apply In_errsOf in Hin. destruct Hin as [k Hin].
    assert (Hin' : In (Returns (k, Some e)) (outcomes city w)).
    { eapply Permutation_in; [exact HP|]. apply in_or_app. now left. }
    apply in_map_iff in Hin'. destruct Hin' as (p & Hp & Hpw). eauto.
Qed.

Lemma exec_app (sched sched' : list action) (s : state) :
  exec city (sched ++ sched') s =
  match exec city sched s with
  | Some s1 => exec city sched' s1
  | None => None
  end.
Proof.
  revert s. induction sched as [|a sched IH]; intros s; cbn; auto.
  destruct (step city a s); auto.
Qed.

Lemma Inv_returns (n : nat) (d : list (outcome (float64 * option error))) (s : state) :
  panicsOf (outcomes city w) = [] -> fuel s <= n -> Inv city w d s ->
  exists sched' s' r, exec city sched' s = Some s' /\ caller s' = Returned r.
Proof.
  intros Hp. revert d s. induction n as [|n IH]; intros d s Hn HI.
  - exists [], s. unfold fuel in Hn.
    destruct (caller s) as [rest|i sum|r|msg] eqn:Hm; try lia; [eauto|].
    destruct HI as [_ _ _ Hmain]. now rewrite Hm in Hmain.
  - destruct (caller s) as [rest|i sum|r|msg] eqn:Hm.
    3: now exists [], s, r.
    3: destruct HI as [_ _ _ Hmain]; now rewrite Hm in Hmain.
    all: destruct (Inv_progress d s HI) as (a & s1 & Hs); [intros r; congruence|].
    all: pose proof (step_fuel a s s1 Hs) as Hf.
    all: destruct (step_Sound d s s1 a HI Hs) as [HI1|(msg & _ & Hin)];
      [|apply In_panicsOf in Hin; rewrite Hp in Hin; contradiction].
    all: destruct (IH _ s1 ltac:(lia) HI1) as (sched' & s' & r & He & Hr).
    all: exists (a :: sched'), s', r; cbn; rewrite Hs; auto.
Qed.

Lemma temperature_returned (sched : list action) (r : float64 * option error) :
  multiWeatherProvider.temperature w city sched = Some r <->
  exists s, exec city sched (init w) = Some s /\ caller s = Returned r.
Proof.
  unfold multiWeatherProvider.temperature, returned. split.
  - destruct (exec city sched (init w)) as [s|]; [|discriminate].
    destruct s as [n [rest|i sum|r'|msg] G T E]; try discriminate.
    intros [= <-]. eexists. split; reflexivity.
  - intros (s & -> & Hs). destruct s as [n fr G T E]. cbn in Hs. now rewrite Hs.
Qed.

(** When no provider panics, every interleaving terminates. *)
Lemma reachable_terminates (sched : list action) (s : state) :
  panicsOf (outcomes city w) = [] ->
  exec city sched (init w) = Some s -> terminates city w sched s.
Proof.
  intros Hp He. split; [exact (exec_bounded w sched s He)|]. split.
  - intros Hr. apply (reachable_progress sched s He Hr).
    exact (reachable_not_crashed sched s Hp He).
  - destruct (Inv_returns (fuel s) _ s Hp (le_n _) (reachable_Inv sched s Hp He))
      as (sched' & s' & r & He' & Hr).
    exists sched', s', r. rewrite exec_app, He. auto.
Qed.

End Runs.

(** ** Sums in arrival order *)

Lemma fsum_Permutation_small (l l' : list float64) :
  Permutation l l' -> List.length l <= 2 -> fsum l = fsum l'.
Proof.
  intros HP Hl. destruct l as [|a [|b [|c l]]]; cbn in Hl; try lia.
  - apply Permutation_nil in HP. now subst.
  - apply Permutation_length_1_inv in HP. now subst.
  - apply Permutation_length_2_inv in HP. destruct HP as [->| ->]; auto.
    apply fsum_pair_swap.
Qed.

Lemma Permutation_length_3_inv {A} (a b c : A) (l : list A) :
  Permutation [a; b; c] l ->
  l = [a; b; c] \/ l = [a; c; b] \/ l = [b; a; c] \/
  l = [b; c; a] \/ l = [c; a; b] \/ l = [c; b; a].
Proof.
  intros HP. pose proof (Permutation_length HP) as Hl.
  destruct l as [|x l]; [discriminate|].
  assert (Hx : In x [a; b; c]) by (eapply Permutation_in; [symmetry; exact HP|now left]).
  destruct Hx as [<-|[<-|[<-|[]]]].
  - apply Permutation_cons_inv in HP. apply Permutation_length_2_inv in HP.
    destruct HP as [->| ->]; auto.
  - assert (HP' : Permutation (b :: [a; c]) (b :: l)).
    { rewrite <- HP. apply perm_swap. }
    apply Permutation_cons_inv in HP'. apply Permutation_length_2_inv in HP'.
    destruct HP' as [->| ->]; auto 6.
  - assert (HP' : Permutation (c :: [a; b]) (c :: l)).
    { rewrite <- HP. apply (Permutation_cons_append [a; b] c). }
    apply Permutation_cons_inv in HP'. apply Permutation_length_2_inv in HP'.
    destruct HP' as [->| ->]; auto 7.
Qed.

(** ** The claims about the concurrent aggregator *)

(** C1, as the specification has it, fails: the value returned is not
    determined by the temperatures.  The mean of 254.2, 259.35 and 245.9,
    converted, is -4, and so is the [float64] computation of it in that
    order; when the third answer overtakes the second, [temperature] returns
    another value. *)
Lemma C1_mean_in_fahrenheit_counterexample :
  outcomes "London" chilly
  = map (fun k => Returns (k, None)) [254.2%float; 259.35%float; 245.9%float] /\
  ((fold_left PrimFloat.add [254.2; 259.35; 245.9] 0 / 3 - 273.15) * 1.8 + 32)%float
  = (-4)%float /\
  multiWeatherProvider.temperature chilly "London" inOrder = Some ((-4)%float, None) /\
  multiWeatherProvider.temperature chilly "London" lastOvertakes
  = Some ((-3.9999999999999503)%float, None) /\
  multiWeatherProvider.temperature chilly "London" lastOvertakes <> Some ((-4)%float, None).
Proof.
  repeat split; try reflexivity.
  intros H.
  apply (f_equal (fun o => match o with Some (x, _) => x | None => 0%float end)) in H.
  vm_compute in H. revert H. apply float64_neq. reflexivity.
Qed.

(** C1, amended.  When every provider of [w] succeeds, with the Kelvin
    temperatures [ts] in the order of [w], every interleaving terminates,
    and what [temperature] returns is no error and the value
    [(mean - 273.15) * 1.8 + 32], where [mean] is the [float64] sum of the
    temperatures, taken as they arrive, over [float64(len(w))].  With at
    most two providers, or when the temperatures arrive in the order of the
    providers, that is the value computed from [ts] as they stand: the sum
    from 0.0 on, from the first to the last, over the number of them.  With
    the one provider answering 273.15 the value is exactly 32. *)
Theorem C1_mean_in_fahrenheit (city : string) (w : multiWeatherProvider.t) (ts : list float64) :
  outcomes city w = map (fun k => Returns (k, None)) ts ->
  forall sched : list action,
    (forall s, exec city sched (init w) = Some s -> terminates city w sched s) /\
    (forall r, multiWeatherProvider.temperature w city sched = Some r ->
       Permutation (tempsOf (arrivals city sched (init w))) ts /\
       r = (((fsum (tempsOf (arrivals city sched (init w))) / float64_of_len (List.length w)
                - 273.15) * 1.8 + 32)%float, None) /\
       (List.length ts <= 2 \/ tempsOf (arrivals city sched (init w)) = ts ->
        r = (((fold_left PrimFloat.add ts 0
                 / PrimFloat.of_uint63 (Uint63.of_Z (Z.of_nat (List.length ts)))
                 - 273.15) * 1.8 + 32)%float, None)) /\
       (ts = [273.15%float] -> r = (32%float, None))).
Proof.
  intros Hw sched.
  assert (Hp : panicsOf (outcomes city w) = []) by (rewrite Hw; apply panicsOf_succeed).
  assert (Hl : List.length w = List.length ts).
  { apply (f_equal (@List.length _)) in Hw. unfold outcomes in Hw.
    now rewrite !length_map in Hw. }
  split; [intros s He; exact (reachable_terminates city w sched s Hp He)|].
  intros r Hr. apply temperature_returned in Hr. destruct Hr as (s & He & Hm).
  destruct (returned_all_succeed city w ts sched s r Hw He Hm) as [HP Hr].
  split; [exact HP|]. split; [exact Hr|]. split.
  - intros Hd.
    assert (Hs : fsum (tempsOf (arrivals city sched (init w))) = fsum ts).
    { destruct Hd as [Hd|Hd]; [|now rewrite Hd].
      apply fsum_Permutation_small; [exact HP|]. rewrite (Permutation_length HP). exact Hd. }
    rewrite Hr, Hs, Hl. reflexivity.
  - intros ->. apply Permutation_sym, Permutation_length_1_inv in HP.
    rewrite Hr, HP, Hl. reflexivity.
Qed.

(** Three providers, the third of which overtakes the second; one provider
    at 273.15 K. *)
Lemma C1_mean_in_fahrenheit_witness :
  multiWeatherProvider.temperature chilly "London" lastOvertakes
  = Some ((-3.9999999999999503)%float, None) /\
  tempsOf (arrivals "London" lastOvertakes (init chilly))
  = [254.2%float; 245.9%float; 259.35%float] /\
  multiWeatherProvider.temperature freezing "London" [Spawn; Collect; Deliver 0; RecvTemp; Return]
  = Some (32%float, None) /\
  (forall r,
     multiWeatherProvider.temperature chilly "London" lastOvertakes = Some r ->
     Permutation (tempsOf (arrivals "London" lastOvertakes (init chilly)))
       [254.2%float; 259.35%float; 245.9%float] /\
     r = (((fsum (tempsOf (arrivals "London" lastOvertakes (init chilly)))
              / float64_of_len (List.length chilly) - 273.15) * 1.8 + 32)%float, None) /\
     (List.length [254.2%float; 259.35%float; 245.9%float] <= 2 \/
      tempsOf (arrivals "London" lastOvertakes (init chilly))
      = [254.2%float; 259.35%float; 245.9%float] ->
      r = (((fold_left PrimFloat.add [254.2%float; 259.35%float; 245.9%float] 0
               / PrimFloat.of_uint63
                   (Uint63.of_Z (Z.of_nat (List.length [254.2%float; 259.35%float; 245.9%float])))
               - 273.15) * 1.8 + 32)%float, None)) /\
     ([254.2%float; 259.35%float; 245.9%float] = [273.15%float] -> r = (32%float, None))) /\
  (forall r,
     multiWeatherProvider.temperature freezing "London" [Spawn; Collect; Deliver 0; RecvTemp; Return]
     = Some r -> r = (32%float, None)).
Proof.
  do 3 (split; [reflexivity|]). split.
  - exact (proj2 (C1_mean_in_fahrenheit "London" chilly
                    [254.2%float; 259.35%float; 245.9%float] eq_refl lastOvertakes)).
  - intros r Hr.
    exact (proj2 (proj2 (proj2 (proj2 (C1_mean_in_fahrenheit "London" freezing [273.15%float]
                                         eq_refl [Spawn; Collect; Deliver 0; RecvTemp; Return])
                                      r Hr))) eq_refl).
Defined.

(** C2, as the specification has it, fails: with no provider the call
    returns NaN and a nil error. *)
Lemma C2_no_providers_counterexample :
  exists r, multiWeatherProvider.temperature [] "London" [Collect; Return] = Some r /\
            snd r = None /\ PrimFloat.is_nan (fst r) = true.
Proof.
  exists (PrimFloat.nan, None). repeat split.
Qed.

(** C2, amended.  With no provider nothing is spawned and nothing received:
    every interleaving terminates, within two steps and without a crash, and
    what [temperature] returns is the quotient of 0.0 by [float64(0)],
    converted, which is NaN, and a nil error.  No error of any kind is
    made. *)
Theorem C2_no_providers (city : string) (sched : list action) :
  (forall s, exec city sched (init []) = Some s ->
             terminates city [] sched s /\ forall msg, caller s <> Crashed msg) /\
  (forall r, multiWeatherProvider.temperature [] city sched = Some r ->
     r = ((((0 / float64_of_len 0) - 273.15) * 1.8 + 32)%float, None) /\
     r = (PrimFloat.nan, None)).
Proof.
  split.
  - intros s He.
    split; [exact (reachable_terminates city [] sched s eq_refl He)|].
    exact (reachable_not_crashed city [] sched s eq_refl He).
  - intros r Hr. apply temperature_returned in Hr. destruct Hr as (s & He & Hm).
    destruct (returned_all_succeed city [] [] sched s r eq_refl He Hm) as [HP ->].
    apply Permutation_sym, Permutation_nil in HP. rewrite HP. split; reflexivity.
Qed.

Lemma C2_no_providers_witness :
  exec "London" [Collect; Return] (init []) = Some returnedNaN /\
  multiWeatherProvider.temperature [] "London" [Collect; Return] = Some (PrimFloat.nan, None) /\
  (forall s, exec "London" [Collect; Return] (init []) = Some s ->
             terminates "London" [] [Collect; Return] s /\ forall msg, caller s <> Crashed msg) /\
  (forall r, multiWeatherProvider.temperature [] "London" [Collect; Return] = Some r ->
     r = ((((0 / float64_of_len 0) - 273.15) * 1.8 + 32)%float, None) /\
     r = (PrimFloat.nan, None)).
Proof.
  do 2 (split; [reflexivity|]).
  exact (C2_no_providers "London" [Collect; Return]).
Defined.

(** C3.  When some provider of [w] fails, then whatever the other
    goroutines have done by the time [temperature] returns, it returns the
    zero temperature with the error that arrived first on [errs], and that
    error is the very value a provider of [w] returned.  Every interleaving
    terminates, provided that no provider panics. *)
Theorem C3_first_error_wins (city : string) (w : multiWeatherProvider.t)
    (p0 : weatherProvider.t) (k0 : float64) (e0 : error) :
  In p0 w -> weatherProvider.call p0 city = Returns (k0, Some e0) ->
  forall sched : list action,
    (panicsOf (outcomes city w) = [] ->
     forall s, exec city sched (init w) = Some s -> terminates city w sched s) /\
    (forall r, multiWeatherProvider.temperature w city sched = Some r ->
       exists e, r = (0%float, Some e) /\
                 hd_error (errsOf (arrivals city sched (init w))) = Some e /\
                 exists p k, In p w /\ weatherProvider.call p city = Returns (k, Some e)).
Proof.
  intros Hin Hcall sched. split.
  { intros Hp s He. exact (reachable_terminates city w sched s Hp He). }
  intros r Hr. apply temperature_returned in Hr. destruct Hr as (s & He & Hm).
  apply (returned_some_fail city w sched s r); auto.
  intros Hnil.
  assert (Hi : In e0 (errsOf (outcomes city w))).
  { apply (In_errsOf_intro k0). rewrite <- Hcall.
    apply (in_map (fun q => weatherProvider.call q city)). exact Hin. }
  rewrite Hnil in Hi. contradiction.
Qed.

Lemma C3_first_error_wins_witness :
  In (failing timeout) oneDown /\
  weatherProvider.call (failing timeout) "London" = Returns (0%float, Some timeout) /\
  exec "London" hurried (init oneDown) = Some returnedEarly /\
  goroutines returnedEarly = [succeeding 290%float] /\
  multiWeatherProvider.temperature oneDown "London" hurried = Some (0%float, Some timeout) /\
  (panicsOf (outcomes "London" oneDown) = [] ->
   forall s, exec "London" hurried (init oneDown) = Some s ->
             terminates "London" oneDown hurried s) /\
  (forall r, multiWeatherProvider.temperature oneDown "London" hurried = Some r ->
     exists e, r = (0%float, Some e) /\
               hd_error (errsOf (arrivals "London" hurried (init oneDown))) = Some e /\
               exists p k, In p oneDown /\ weatherProvider.call p "London" = Returns (k, Some e)).
Proof.
  split; [right; left; reflexivity|]. do 4 (split; [reflexivity|]).
  exact (C3_first_error_wins "London" oneDown (failing timeout) 0%float timeout
           (or_intror (or_introl eq_refl)) eq_refl hurried).
Defined.

(** The error wins also when the temperature arrived, and was received,
    before it. *)
Example oneDown_result :
  multiWeatherProvider.temperature oneDown "London"
    [Spawn; Spawn; Deliver 0; Deliver 0; Collect; RecvTemp; RecvErr]
  = Some (0%float, Some timeout).
Proof. reflexivity. Qed.

(** C4, as the specification has it, fails: two arrival orders of the same
    three successful answers give two different results. *)
Lemma C4_arrival_order_counterexample :
  outcomes "London" mild
  = map (fun k => Returns (k, None)) [290.1%float; 290.2%float; 290.4%float] /\
  tempsOf (arrivals "London" inOrder (init mild)) = [290.1%float; 290.2%float; 290.4%float] /\
  tempsOf (arrivals "London" lastOvertakes (init mild)) = [290.1%float; 290.4%float; 290.2%float] /\
  multiWeatherProvider.temperature mild "London" inOrder
  = Some (62.749999999999972%float, None) /\
  multiWeatherProvider.temperature mild "London" lastOvertakes
  = Some (62.750000000000071%float, None) /\
  multiWeatherProvider.temperature mild "London" inOrder
  <> multiWeatherProvider.temperature mild "London" lastOvertakes.
Proof.
  repeat split; try reflexivity.
  intros H.
  apply (f_equal (fun o => match o with Some (x, _) => x | None => 0%float end)) in H.
  vm_compute in H. revert H. apply float64_neq. reflexivity.
Qed.

(** C4, amended.  When every provider succeeds, two interleavings see the
    same temperatures arrive, in orders that may differ, and each returns
    the conversion of its own [float64] sum over [float64(len(w))]; with at
    most two providers the two results are equal. *)
Theorem C4_arrival_order (city : string) (w : multiWeatherProvider.t) (ts : list float64) :
  outcomes city w = map (fun k => Returns (k, None)) ts ->
  forall (sched1 sched2 : list action) (r1 r2 : float64 * option error),
    multiWeatherProvider.temperature w city sched1 = Some r1 ->
    multiWeatherProvider.temperature w city sched2 = Some r2 ->
    Permutation (tempsOf (arrivals city sched1 (init w)))
                (tempsOf (arrivals city sched2 (init w))) /\
    r1 = (reported (fsum (tempsOf (arrivals city sched1 (init w)))) (List.length w), None) /\
    r2 = (reported (fsum (tempsOf (arrivals city sched2 (init w)))) (List.length w), None) /\
    (List.length w <= 2 -> r1 = r2).
Proof.
  intros Hw sched1 sched2 r1 r2 H1 H2.
  apply temperature_returned in H1, H2.
  destruct H1 as (s1 & He1 & Hm1), H2 as (s2 & He2 & Hm2).
  destruct (returned_all_succeed city w ts sched1 s1 r1 Hw He1 Hm1) as [HP1 Hr1].
  destruct (returned_all_succeed city w ts sched2 s2 r2 Hw He2 Hm2) as [HP2 Hr2].
  assert (HP : Permutation (tempsOf (arrivals city sched1 (init w)))
                           (tempsOf (arrivals city sched2 (init w)))).
  { rewrite HP1. now symmetry. }
  repeat split; auto.
  intros Hl. rewrite Hr1, Hr2. f_equal. f_equal.
  apply fsum_Permutation_small; [exact HP|].
  rewrite (Permutation_length HP1).
  apply (f_equal (@List.length _)) in Hw. unfold outcomes in Hw.
  rewrite !length_map in Hw. lia.
Qed.

Lemma C4_arrival_order_witness :
  outcomes "London" pair = map (fun k => Returns (k, None)) [290.1%float; 290.4%float] /\
  multiWeatherProvider.temperature pair "London" firstFirst
  = Some (62.780000000000044%float, None) /\
  multiWeatherProvider.temperature pair "London" secondFirst
  = Some (62.780000000000044%float, None) /\
  tempsOf (arrivals "London" firstFirst (init pair)) = [290.1%float; 290.4%float] /\
  tempsOf (arrivals "London" secondFirst (init pair)) = [290.4%float; 290.1%float] /\
  Permutation (tempsOf (arrivals "London" firstFirst (init pair)))
              (tempsOf (arrivals "London" secondFirst (init pair))) /\
  (62.780000000000044%float, @None error)
  = (reported (fsum (tempsOf (arrivals "London" firstFirst (init pair)))) (List.length pair), None) /\
  (62.780000000000044%float, @None error)
  = (reported (fsum (tempsOf (arrivals "London" secondFirst (init pair)))) (List.length pair), None) /\
  (List.length pair <= 2 -> (62.780000000000044%float, @None error) = (62.780000000000044%float, None)).
Proof.
  do 5 (split; [reflexivity|]).
  exact (C4_arrival_order "London" pair [290.1%float; 290.4%float] eq_refl
           firstFirst secondFirst _ _ eq_refl eq_refl).
Defined.

(** C5, as the specification has it, fails: the value returned is 80.33 up to
    rounding, not 80.87. *)
Lemma C5_scenario_counterexample :
  exists x, multiWeatherProvider.temperature scenario "London" inOrder = Some (x, None) /\
            x <> 80.87%float /\ PrimFloat.ltb x 80.34%float = true.
Proof.
  exists 80.330000000000041%float. split; [reflexivity|]. split; [|reflexivity].
  apply float64_neq. reflexivity.
Qed.

Lemma fsum_scenario (l : list float64) :
  Permutation l [300%float; 310%float; 290%float] -> fsum l = 900%float.
Proof.
  intros HP. apply Permutation_sym, Permutation_length_3_inv in HP.
  destruct HP as [->|[->|[->|[->|[->| ->]]]]]; reflexivity.
Qed.

(** C5, amended.  With three providers answering 300, 310 and 290 K, every
    interleaving terminates, and what [temperature] returns is a nil error
    and [(300 - 273.15) * 1.8 + 32] as [float64] computes it, which is
    80.330000000000041: 80.33 up to rounding. *)
Theorem C5_scenario (city : string) (w : multiWeatherProvider.t) :
  outcomes city w = map (fun k => Returns (k, None)) [300%float; 310%float; 290%float] ->
  forall sched : list action,
    (forall s, exec city sched (init w) = Some s -> terminates city w sched s) /\
    (forall r, multiWeatherProvider.temperature w city sched = Some r ->
       r = (((300 - 273.15) * 1.8 + 32)%float, None) /\
       r = (80.330000000000041%float, None) /\
       PrimFloat.ltb (PrimFloat.abs (fst r - 80.33)) 1e-13 = true).
Proof.
  intros Hw sched.
  assert (Hp : panicsOf (outcomes city w) = []) by (rewrite Hw; reflexivity).
  assert (Hl : List.length w = 3).
  { apply (f_equal (@List.length _)) in Hw. unfold outcomes in Hw.
    now rewrite !length_map in Hw. }
  split; [intros s He; exact (reachable_terminates city w sched s Hp He)|].
  intros r Hr. apply temperature_returned in Hr. destruct Hr as (s & He & Hm).
  destruct (returned_all_succeed city w _ sched s r Hw He Hm) as [HP ->].
  rewrite (fsum_scenario _ HP), Hl. repeat split.
Qed.

Lemma C5_scenario_witness :
  outcomes "London" scenario
  = map (fun k => Returns (k, None)) [300%float; 310%float; 290%float] /\
  multiWeatherProvider.temperature scenario "London" lastOvertakes
  = Some (80.330000000000041%float, None) /\
  (forall s, exec "London" lastOvertakes (init scenario) = Some s ->
             terminates "London" scenario lastOvertakes s) /\
  (forall r, multiWeatherProvider.temperature scenario "London" lastOvertakes = Some r ->
     r = (((300 - 273.15) * 1.8 + 32)%float, None) /\
     r = (80.330000000000041%float, None) /\
     PrimFloat.ltb (PrimFloat.abs (fst r - 80.33)) 1e-13 = true).
Proof.
  do 2 (split; [reflexivity|]).
  exact (C5_scenario "London" scenario eq_refl lastOvertakes).
Defined.

(** ** The decoder *)

Lemma decodes_saveError (saved next : option error) :
  decodes saved -> decodes next -> decodes (json.saveError saved next).
Proof. destruct saved; cbn; auto. Qed.

Lemma decodes_inv (o : option error) (e : error) :
  decodes o -> o = Some e -> exists msg, e = DecodeError msg.
Proof. intros H ->. destruct e; cbn in H; try contradiction. eauto. Qed.

Lemma float64_wellKinded : wellKinded json.float64_.
Proof. intros cur [| |[f|]| | |]; exact I. Qed.

Lemma within_wellKinded {A B} (get : A -> B) (set : B -> A -> A) (d : json.decoder B) :
  wellKinded d -> wellKinded (json.within get set d).
Proof.
  intros Hd cur v. unfold json.within. specialize (Hd (get cur) v).
  destruct (d (get cur) v). exact Hd.
Qed.

Lemma findField_In {A} (fields : list (json.field A)) (key : string) (f : json.field A) :
  json.findField fields key = Some f -> In f fields.
Proof.
  unfold json.findField.
  destruct (find (fun f0 => String.eqb (json.name f0) key) fields) eqn:H1.
  - intros [= <-]. now apply find_some in H1.
  - intros H2. now apply find_some in H2.
Qed.

Lemma struct_wellKinded {A} (goType : string) (fields : list (json.field A)) :
  Forall (fun f => wellKinded (json.store f)) fields -> wellKinded (json.struct goType fields).
Proof.
  intros Hf cur v. destruct v as [| | | | |members]; try exact I.
  cbn [json.struct]. generalize (cur, @None error) (I : decodes (snd (cur, @None error))).
  induction members as [|m members IH]; intros acc Hacc; cbn [fold_left]; auto.
  apply IH. unfold json.member.
  destruct (json.findField fields (fst m)) as [f|] eqn:Hfind; auto.
  apply findField_In in Hfind. rewrite Forall_forall in Hf.
  specialize (Hf f Hfind (fst acc) (snd m)).
  destruct (json.store f (fst acc) (snd m)). now apply decodes_saveError.
Qed.

Lemma slice_wellKinded {A} (zero : A) (elem : json.decoder A) :
  wellKinded elem -> wellKinded (json.slice zero elem).
Proof.
  intros He cur v. destruct v as [| | | |xs|]; try exact I.
  assert (H : forall acc, decodes (snd acc) ->
                decodes (snd (fold_left (json.element zero elem) xs acc))).
  { induction xs as [|x xs IH]; intros acc Hacc; cbn [fold_left]; auto.
    apply IH. unfold json.element. specialize (He (hd zero (snd (fst acc))) x).
    destruct (elem (hd zero (snd (fst acc))) x). now apply decodes_saveError. }
  destruct xs as [|x xs]; [exact I|]. apply H. exact I.
Qed.

Ltac well_kinded :=
  repeat (cbn [json.store];
          first [ apply float64_wellKinded | apply within_wellKinded
                | apply struct_wellKinded | apply slice_wellKinded
                | apply Forall_cons | apply Forall_nil ]).

Lemma openWeatherMap_shape_wellKinded : wellKinded openWeatherMap.shape.
Proof. unfold openWeatherMap.shape. well_kinded. Qed.

Lemma weatherUnderground_shape_wellKinded : wellKinded weatherUnderground.shape.
Proof. unfold weatherUnderground.shape. well_kinded. Qed.

Lemma darkSky_shape_wellKinded : wellKinded darkSky.shape.
Proof. unfold darkSky.shape. well_kinded. Qed.

Lemma darkSky_shapeG_wellKinded : wellKinded darkSky.shapeG.
Proof.
  unfold darkSky.shapeG, darkSky.resultShape, darkSky.locationShape. well_kinded.
Qed.

Lemma Decode_error_kind {A} (shape : json.decoder A) (b : http.Body) (zero d : A) (e : error) :
  wellKinded shape -> Decode shape b zero = (d, Some e) -> exists msg, e = DecodeError msg.
Proof.
  intros Hk Hd. destruct b as [msg|v]; cbn in Hd.
  - injection Hd as _ <-. eauto.
  - specialize (Hk zero v). rewrite Hd in Hk. now apply (decodes_inv (Some e)).
Qed.

(** Members that a one-field struct does not know leave it as it is. *)
Lemma findField_single {A} (f : json.field A) (key : string) :
  json.findField [f] key = if json.equalFold (json.name f) key then Some f else None.
Proof.
  unfold json.findField. cbn [find].
  destruct (String.eqb (json.name f) key) eqn:He.
  - apply String.eqb_eq in He. unfold json.equalFold. rewrite He, String.eqb_refl. reflexivity.
  - destruct (json.equalFold (json.name f) key); reflexivity.
Qed.

Lemma fold_member_lacking {A} (f : json.field A) (members : list (string * json.value))
    (acc : A * option error) :
  lacksKey (json.name f) members = true ->
  fold_left (json.member [f]) members acc = acc.
Proof.
  revert acc. induction members as [|m members IH]; intros acc H; cbn in *; auto.
  apply andb_prop in H. destruct H as [Hm H].
  rewrite IH by exact H. unfold json.member. rewrite findField_single.
  apply negb_true_iff in Hm. now rewrite Hm.
Qed.

Lemma struct_lacking {A} (goType : string) (f : json.field A)
    (members : list (string * json.value)) (cur : A) :
  lacksKey (json.name f) members = true ->
  json.struct goType [f] cur (json.Object members) = (cur, None).
Proof. intros H. cbn. now apply fold_member_lacking. Qed.

Lemma struct_once {A} (goType : string) (f : json.field A)
    (before after : list (string * json.value)) (k : string) (v : json.value) (cur : A) :
  json.equalFold (json.name f) k = true ->
  lacksKey (json.name f) before = true -> lacksKey (json.name f) after = true ->
  json.struct goType [f] cur (json.Object (before ++ (k, v) :: after)) = json.store f cur v.
Proof.
  intros Hk Hb Ha. cbn [json.struct]. rewrite fold_left_app. cbn [fold_left].
  rewrite (fold_member_lacking f after) by exact Ha.
  rewrite (fold_member_lacking f before) by exact Hb.
  unfold json.member. rewrite findField_single. cbn [fst snd]. rewrite Hk.
  destruct (json.store f cur v) as [c e]. reflexivity.
Qed.

Lemma fold_member_inert {A} (f : json.field A) (members : list (string * json.value))
    (cur : A) :
  (forall m, In m members -> json.equalFold (json.name f) (fst m) = true ->
             json.store f cur (snd m) = (cur, None)) ->
  fold_left (json.member [f]) members (cur, None) = (cur, None).
Proof.
  induction members as [|m members IH]; intros H; cbn [fold_left]; auto.
  assert (Hm : json.member [f] (cur, None) m = (cur, None)).
  { unfold json.member. rewrite findField_single. cbn [fst snd].
    destruct (json.equalFold (json.name f) (fst m)) eqn:He; auto.
    rewrite (H m (or_introl eq_refl) He). reflexivity. }
  rewrite Hm. apply IH. intros m' Hin. apply H. now right.
Qed.

(** Storing into [outer] each member of an object that lacks [outer.inner]
    changes nothing. *)
Lemma struct_lacks {A B} (goType goType' : string) (outer inner : string)
    (get : A -> B) (set : B -> A -> A) (d : json.decoder B) (cur : A) (v : json.value) :
  (forall a, set (get a) a = a) ->
  lacks outer inner v = true ->
  json.struct goType
    [ {| json.name := outer;
         json.store := json.within get set
                         (json.struct goType' [ {| json.name := inner; json.store := d |} ]) |} ]
    cur v = (cur, None).
Proof.
  intros Heta H. destruct v as [| | | | |members]; try discriminate; [reflexivity|].
  cbn [json.struct lacks] in *. apply fold_member_inert.
  intros m Hin Hm. cbn [json.name json.store] in *.
  rewrite forallb_forall in H. specialize (H m Hin). rewrite Hm in H.
  unfold json.within.
  destruct (snd m) as [| | | | |inside]; try discriminate.
  - cbn. now rewrite Heta.
  - rewrite struct_lacking by exact H. now rewrite Heta.
Qed.

Lemma struct_carries {A B} (goType goType' : string) (outer inner : string)
    (get : A -> B) (set : B -> A -> A) (get' : B -> float64) (set' : float64 -> B -> B)
    (cur : A) (x : float64) (v : json.value) :
  carries outer inner x v ->
  json.struct goType
    [ {| json.name := outer;
         json.store := json.within get set
                         (json.struct goType'
                            [ {| json.name := inner;
                                 json.store := json.within get' set' json.float64_ |} ]) |} ]
    cur v = (set (set' x (get cur)) cur, None).
Proof.
  intros (before & k & after & ib & k' & ia & -> & Hk & Hb & Ha & Hk' & Hib & Hia).
  rewrite struct_once by assumption. cbn [json.store]. unfold json.within at 1.
  rewrite struct_once by assumption. reflexivity.
Qed.

(** ** The providers *)

Section Providers.

Context `{client : http.Client} `{formatter : fmt.Formatter}.

Lemma fetch_failure {A} (url : string) (shape : json.decoder A) (zero : A) (e : error) :
  wellKinded shape ->
  fetch url shape zero = inr e <-> failure url shape zero e.
Proof.
  intros Hk. unfold fetch, http.Get. split.
  - destruct (http.roundTrip url) as [resp|msg] eqn:Hr.
    + destruct (Decode shape (http.body resp) zero) as [d [e'|]] eqn:Hd; [|discriminate].
      intros [= <-]. destruct (Decode_error_kind shape _ zero d e' Hk Hd) as [msg ->].
      now apply (undecodable url shape zero resp d msg).
    + intros [= <-]. now apply upstream.
  - intros [msg Hr|resp d msg Hr Hd]; rewrite Hr; [reflexivity|]. now rewrite Hd.
Qed.

Lemma openWeatherMap_fetch (w : openWeatherMap.t) (city : string) :
  openWeatherMap.temperature w city =
  match fetch (openWeatherMap.url w city) openWeatherMap.shape openWeatherMap.zero with
  | inr err => (0%float, Some err)
  | inl d => (openWeatherMap.Kelvin (openWeatherMap.Main d), None)
  end.
Proof.
  unfold openWeatherMap.temperature, fetch.
  destruct (http.Get (openWeatherMap.url w city)) as [resp|err]; [|reflexivity].
  destruct (Decode openWeatherMap.shape (http.body resp) openWeatherMap.zero) as [d [e|]];
    reflexivity.
Qed.

Lemma weatherUnderground_fetch (w : weatherUnderground.t) (city : string) :
  weatherUnderground.temperature w city =
  match fetch (weatherUnderground.url w city) weatherUnderground.shape weatherUnderground.zero with
  | inr err => (0%float, Some err)
  | inl d =>
      ((weatherUnderground.Celsius (weatherUnderground.Observation d) + 273.15)%float, None)
  end.
Proof.
  unfold weatherUnderground.temperature, fetch.
  destruct (http.Get (weatherUnderground.url w city)) as [resp|err]; [|reflexivity].
  destruct (Decode weatherUnderground.shape (http.body resp) weatherUnderground.zero)
    as [d [e|]]; reflexivity.
Qed.

Lemma getCoords_fetch (w : darkSky.t) (city key : string) :
  darkSky.getCoords w city key =
  match fetch (darkSky.geocodeUrl city key) darkSky.shapeG darkSky.zeroG with
  | inr err => Returns (0%float, 0%float, Some err)
  | inl g =>
      match nth_error (json.elems (darkSky.Results g)) 0 with
      | None => Panics "runtime error: index out of range [0] with length 0"
      | Some r0 =>
          Returns (darkSky.Lat (darkSky.Location (darkSky.Geometry r0)),
                   darkSky.Lng (darkSky.Location (darkSky.Geometry r0)), None)
      end
  end.
Proof.
  unfold darkSky.getCoords, fetch.
  destruct (http.Get (darkSky.geocodeUrl city key)) as [resp|err]; [|reflexivity].
  destruct (Decode darkSky.shapeG (http.body resp) darkSky.zeroG) as [d [e|]]; reflexivity.
Qed.

Lemma darkSky_fetch (w : darkSky.t) (city : string) (lat lon : float64) :
  darkSky.getCoords w city (darkSky.googleKey w) = Returns (lat, lon, None) ->
  darkSky.temperature w city =
  match fetch (darkSky.forecastUrl w lat lon) darkSky.shape darkSky.zero with
  | inr err => Returns (0%float, Some err)
  | inl d =>
      Returns ((darkSky.Temperature (darkSky.Currently d) + 273.15)%float, None)
  end.
Proof.
  intros Hc. unfold darkSky.temperature, fetch. rewrite Hc.
  destruct (http.Get (darkSky.forecastUrl w lat lon)) as [resp|err]; [|reflexivity].
  destruct (Decode darkSky.shape (http.body resp) darkSky.zero) as [d [e|]]; reflexivity.
Qed.

End Providers.

(** ** The claims about the providers *)

(** C6, as the specification has it, fails: a reply with a status that is
    not a success is no failure.  Its body is decoded as any other, and here
    the provider returns 0 K and a nil error. *)
Lemma C6_failure_modes_counterexample :
  @http.Get unauthorized (openWeatherMap.url {| openWeatherMap.apiKey := "bad" |} "London")
  = inl {| http.StatusCode := 401;
           http.body := http.Document
             (json.Object [("cod", json.Number (Some 401%float));
                           ("message", json.Str "Invalid API key.")]) |} /\
  @openWeatherMap.temperature unauthorized {| openWeatherMap.apiKey := "bad" |} "London"
  = (0%float, None).
Proof. split; reflexivity. Qed.

(** C6, amended.  A provider returns an error exactly when a GET it makes
    fails in the transport, and then it returns that [UpstreamError], or when
    the body of a response it got does not decode into the expected struct,
    and then it returns that [DecodeError]; the temperature it returns with
    an error is 0.  The status of a response is not looked at.  For darkSky
    the two calls are the geocoding one and, once that has given
    coordinates, the forecast one. *)
Theorem C6_failure_modes `{client : http.Client} `{formatter : fmt.Formatter} (city : string) :
  (forall (w : openWeatherMap.t) (k : float64) (e : error),
     openWeatherMap.temperature w city = (k, Some e) <->
     k = 0%float /\
     failure (openWeatherMap.url w city) openWeatherMap.shape openWeatherMap.zero e) /\
  (forall (w : weatherUnderground.t) (k : float64) (e : error),
     weatherUnderground.temperature w city = (k, Some e) <->
     k = 0%float /\
     failure (weatherUnderground.url w city) weatherUnderground.shape weatherUnderground.zero e) /\
  (forall (w : darkSky.t) (k : float64) (e : error),
     darkSky.temperature w city = Returns (k, Some e) <->
     k = 0%float /\
     (failure (darkSky.geocodeUrl city (darkSky.googleKey w)) darkSky.shapeG darkSky.zeroG e \/
      exists lat lon,
        darkSky.getCoords w city (darkSky.googleKey w) = Returns (lat, lon, None) /\
        failure (darkSky.forecastUrl w lat lon) darkSky.shape darkSky.zero e)).
Proof.
  repeat split.
  - rewrite openWeatherMap_fetch in H.
    destruct (fetch _ _ _); now inversion H.
  - rewrite openWeatherMap_fetch in H.
    destruct (fetch _ _ _) eqn:Hf; [discriminate|]. injection H as _ <-.
    now apply (fetch_failure _ _ _ _ openWeatherMap_shape_wellKinded).
  - intros [-> Hf]. apply (fetch_failure _ _ _ _ openWeatherMap_shape_wellKinded) in Hf.
    rewrite openWeatherMap_fetch, Hf. reflexivity.
  - rewrite weatherUnderground_fetch in H.
    destruct (fetch _ _ _); now inversion H.
  - rewrite weatherUnderground_fetch in H.
    destruct (fetch _ _ _) eqn:Hf; [discriminate|]. injection H as _ <-.
    now apply (fetch_failure _ _ _ _ weatherUnderground_shape_wellKinded).
  - intros [-> Hf]. apply (fetch_failure _ _ _ _ weatherUnderground_shape_wellKinded) in Hf.
    rewrite weatherUnderground_fetch, Hf. reflexivity.
  - unfold darkSky.temperature in H. rewrite getCoords_fetch in H.
    destruct (fetch (darkSky.geocodeUrl _ _) _ _) as [g|err]; [|now inversion H].
    destruct (nth_error (json.elems (darkSky.Results g)) 0); [|discriminate].
    destruct (http.Get _); [|now inversion H].
    destruct (Decode darkSky.shape _ _) as [d [e'|]]; now inversion H.
  - destruct (darkSky.getCoords w city (darkSky.googleKey w)) as [[[lat lon] [err|]]|msg] eqn:Hc.
    + left. unfold darkSky.temperature in H. rewrite Hc in H. injection H as _ <-.
      rewrite getCoords_fetch in Hc.
      destruct (fetch (darkSky.geocodeUrl _ _) _ _) as [g|err'] eqn:Hf.
      * destruct (nth_error (json.elems (darkSky.Results g)) 0); discriminate.
      * injection Hc as _ _ <-.
        now apply (fetch_failure _ _ _ _ darkSky_shapeG_wellKinded).
    + right. exists lat, lon. split; [reflexivity|].
      rewrite (darkSky_fetch w city lat lon Hc) in H.
      destruct (fetch (darkSky.forecastUrl _ _ _) _ _) eqn:Hf; [discriminate|].
      injection H as _ <-. now apply (fetch_failure _ _ _ _ darkSky_shape_wellKinded).
    + unfold darkSky.temperature in H. rewrite Hc in H. discriminate.
  - intros [-> [Hf|(lat & lon & Hc & Hf)]].
    + apply (fetch_failure _ _ _ _ darkSky_shapeG_wellKinded) in Hf.
      unfold darkSky.temperature. rewrite getCoords_fetch, Hf. reflexivity.
    + apply (fetch_failure _ _ _ _ darkSky_shape_wellKinded) in Hf.
      rewrite (darkSky_fetch w city lat lon Hc), Hf. reflexivity.
Qed.

(** The transport is down; the body is cut short; the forecast service is
    down after the geocoding service has answered. *)
Lemma C6_failure_modes_witness :
  @openWeatherMap.temperature (always (inr "dial tcp: i/o timeout"))
    {| openWeatherMap.apiKey := "k" |} "London"
  = (0%float, Some (UpstreamError "dial tcp: i/o timeout")) /\
  @weatherUnderground.temperature
    (always (inl {| http.StatusCode := 200; http.body := http.Unreadable "unexpected EOF" |}))
    {| weatherUnderground.apiKey := "k" |} "London"
  = (0%float, Some (DecodeError "unexpected EOF")) /\
  @darkSky.temperature (routes (ok 200 geocoded) (inr "dial tcp: i/o timeout")) (prints "0")
    sky "London"
  = Returns (0%float, Some (UpstreamError "dial tcp: i/o timeout")).
Proof.
  split; [|split].
  - apply (proj1 (@C6_failure_modes (always (inr "dial tcp: i/o timeout")) (prints "0") "London")).
    split; [reflexivity|]. now apply upstream.
  - apply (proj1 (proj2 (@C6_failure_modes
             (always (inl {| http.StatusCode := 200;
                             http.body := http.Unreadable "unexpected EOF" |}))
             (prints "0") "London"))).
    split; [reflexivity|].
    now apply (undecodable _ _ _ {| http.StatusCode := 200;
                                    http.body := http.Unreadable "unexpected EOF" |}
                           weatherUnderground.zero).
  - apply (proj2 (proj2 (@C6_failure_modes
             (routes (ok 200 geocoded) (inr "dial tcp: i/o timeout")) (prints "0") "London"))).
    split; [reflexivity|]. right. exists 51.5%float, (-0.125)%float.
    split; [reflexivity|]. now apply upstream.
Defined.

(** C7.  Each provider returns the temperature of its upstream in kelvins:
    OpenWeatherMap, which reports kelvins, returns the number decoded from
    [main.temp] as it is; Weather Underground and Dark Sky, which report
    degrees Celsius, return the number decoded from
    [current_observation.temp_c], respectively [currently.temperature],
    plus 273.15.  This holds of whatever the decoder stores in the field, and
    in particular of a document that carries the number there. *)
Theorem C7_normalizes_to_kelvin `{client : http.Client} `{formatter : fmt.Formatter}
    (city : string) :
  (forall (w : openWeatherMap.t) resp d,
     http.Get (openWeatherMap.url w city) = inl resp ->
     Decode openWeatherMap.shape (http.body resp) openWeatherMap.zero = (d, None) ->
     openWeatherMap.temperature w city
     = (openWeatherMap.Kelvin (openWeatherMap.Main d), None)) /\
  (forall (w : openWeatherMap.t) resp v x,
     http.Get (openWeatherMap.url w city) = inl resp ->
     http.body resp = http.Document v -> carries "main" "temp" x v ->
     openWeatherMap.temperature w city = (x, None)) /\
  (forall (w : weatherUnderground.t) resp d,
     http.Get (weatherUnderground.url w city) = inl resp ->
     Decode weatherUnderground.shape (http.body resp) weatherUnderground.zero = (d, None) ->
     weatherUnderground.temperature w city
     = ((weatherUnderground.Celsius (weatherUnderground.Observation d) + 273.15)%float, None)) /\
  (forall (w : weatherUnderground.t) resp v x,
     http.Get (weatherUnderground.url w city) = inl resp ->
     http.body resp = http.Document v -> carries "current_observation" "temp_c" x v ->
     weatherUnderground.temperature w city = ((x + 273.15)%float, None)) /\
  (forall (w : darkSky.t) lat lon resp d,
     darkSky.getCoords w city (darkSky.googleKey w) = Returns (lat, lon, None) ->
     http.Get (darkSky.forecastUrl w lat lon) = inl resp ->
     Decode darkSky.shape (http.body resp) darkSky.zero = (d, None) ->
     darkSky.temperature w city
     = Returns ((darkSky.Temperature (darkSky.Currently d) + 273.15)%float, None)) /\
  (forall (w : darkSky.t) lat lon resp v x,
     darkSky.getCoords w city (darkSky.googleKey w) = Returns (lat, lon, None) ->
     http.Get (darkSky.forecastUrl w lat lon) = inl resp ->
     http.body resp = http.Document v -> carries "Currently" "Temperature" x v ->
     darkSky.temperature w city = Returns ((x + 273.15)%float, None)).
Proof.
  split; [|split; [|split; [|split; [|split]]]].
  - intros w resp d Hg Hd. unfold openWeatherMap.temperature. now rewrite Hg, Hd.
  - intros w resp v x Hg Hb Hc. unfold openWeatherMap.temperature. rewrite Hg, Hb.
    cbn [Decode]. unfold openWeatherMap.shape. rewrite (struct_carries _ _ _ _ _ _ _ _ _ x v Hc).
    reflexivity.
  - intros w resp d Hg Hd. unfold weatherUnderground.temperature. now rewrite Hg, Hd.
  - intros w resp v x Hg Hb Hc. unfold weatherUnderground.temperature. rewrite Hg, Hb.
    cbn [Decode]. unfold weatherUnderground.shape.
    rewrite (struct_carries _ _ _ _ _ _ _ _ _ x v Hc). reflexivity.
  - intros w lat lon resp d Hc Hg Hd. unfold darkSky.temperature. now rewrite Hc, Hg, Hd.
  - intros w lat lon resp v x Hc Hg Hb Hcar. unfold darkSky.temperature. rewrite Hc, Hg, Hb.
    cbn [Decode]. unfold darkSky.shape.
    rewrite (struct_carries _ _ _ _ _ _ _ _ _ x v Hcar). reflexivity.
Qed.

Lemma london_carries : carries "main" "temp" 285.5%float london.
Proof.
  exists [("weather", json.Array [])], "main", [("name", json.Str "London")],
    [], "temp", [("pressure", json.Number (Some 1012%float))].
  repeat split.
Qed.

Lemma observed_carries : carries "current_observation" "temp_c" 12.4%float observed.
Proof.
  exists [("response", json.Object [("version", json.Str "0.1")])], "current_observation", [],
    [("weather", json.Str "Overcast"); ("temp_f", json.Number (Some 54.3%float))], "temp_c", [].
  repeat split.
Qed.

Lemma forecast_carries : carries "Currently" "Temperature" 12.4%float forecast.
Proof.
  exists [("latitude", json.Number (Some 51.5%float))], "currently", [],
    [("summary", json.Str "Drizzle")], "temperature", [].
  repeat split.
Qed.

Example providers_normalize :
  @openWeatherMap.temperature (always (ok 200 london)) {| openWeatherMap.apiKey := "k" |} "London"
  = (285.5%float, None) /\
  @weatherUnderground.temperature (always (ok 200 observed))
    {| weatherUnderground.apiKey := "k" |} "London"
  = (285.54999999999995%float, None).
Proof. split; reflexivity. Qed.

Lemma C7_normalizes_to_kelvin_witness :
  @openWeatherMap.temperature (always (ok 200 london)) {| openWeatherMap.apiKey := "k" |} "London"
  = (285.5%float, None) /\
  @weatherUnderground.temperature (always (ok 200 observed))
    {| weatherUnderground.apiKey := "k" |} "London"
  = ((12.4 + 273.15)%float, None) /\
  @darkSky.getCoords (routes (ok 200 geocoded) (ok 200 forecast)) sky "London" "g"
  = Returns (51.5%float, (-0.125)%float, None) /\
  @darkSky.temperature (routes (ok 200 geocoded) (ok 200 forecast)) (prints "0") sky "London"
  = Returns ((12.4 + 273.15)%float, None).
Proof.
  split; [|split; [|split; [reflexivity|]]].
  - exact (proj1 (proj2 (@C7_normalizes_to_kelvin (always (ok 200 london)) (prints "0") "London"))
             _ _ london 285.5%float eq_refl eq_refl london_carries).
  - exact (proj1 (proj2 (proj2 (proj2
             (@C7_normalizes_to_kelvin (always (ok 200 observed)) (prints "0") "London"))))
             _ _ observed 12.4%float eq_refl eq_refl observed_carries).
  - exact (proj2 (proj2 (proj2 (proj2 (proj2
             (@C7_normalizes_to_kelvin (routes (ok 200 geocoded) (ok 200 forecast))
                (prints "0") "London")))))
             sky _ _ _ forecast 12.4%float eq_refl eq_refl eq_refl forecast_carries).
Defined.

(** C9.  When the geocoding response decodes, without error, to a struct
    whose [Results] is empty, [g.Results[0]] is out of range: [getCoords]
    panics instead of returning an error, and so does [temperature]. *)
Theorem C9_getCoords_index_out_of_range `{client : http.Client} (w : darkSky.t)
    (city key : string) (res : http.Response) (g : darkSky.g_) :
  http.Get (darkSky.geocodeUrl city key) = inl res ->
  Decode darkSky.shapeG (http.body res) darkSky.zeroG = (g, None) ->
  json.elems (darkSky.Results g) = [] ->
  nth_error (json.elems (darkSky.Results g)) 0 = None /\
  darkSky.getCoords w city key
  = Panics "runtime error: index out of range [0] with length 0" /\
  forall formatter : fmt.Formatter,
    key = darkSky.googleKey w ->
    @darkSky.temperature client formatter w city
    = Panics "runtime error: index out of range [0] with length 0".
Proof.
  intros Hg Hd Hr.
  assert (Hn : nth_error (json.elems (darkSky.Results g)) 0 = None) by now rewrite Hr.
  assert (Hc : darkSky.getCoords w city key
               = Panics "runtime error: index out of range [0] with length 0").
  { unfold darkSky.getCoords. now rewrite Hg, Hd, Hn. }
  repeat split; auto.
  intros formatter ->. unfold darkSky.temperature. now rewrite Hc.
Qed.

Lemma C9_getCoords_index_out_of_range_witness :
  @http.Get (always (ok 200 zeroResults)) (darkSky.geocodeUrl "Atlantis" "g")
  = inl {| http.StatusCode := 200; http.body := http.Document zeroResults |} /\
  Decode darkSky.shapeG (http.Document zeroResults) darkSky.zeroG
  = ({| darkSky.Results := json.empty |}, None) /\
  nth_error (json.elems (darkSky.Results {| darkSky.Results := json.empty |})) 0 = None /\
  @darkSky.getCoords (always (ok 200 zeroResults)) sky "Atlantis" "g"
  = Panics "runtime error: index out of range [0] with length 0" /\
  forall formatter : fmt.Formatter,
    "g" = darkSky.googleKey sky ->
    @darkSky.temperature (always (ok 200 zeroResults)) formatter sky "Atlantis"
    = Panics "runtime error: index out of range [0] with length 0".
Proof.
  do 2 (split; [reflexivity|]).
  exact (@C9_getCoords_index_out_of_range (always (ok 200 zeroResults)) sky "Atlantis" "g"
           _ {| darkSky.Results := json.empty |} eq_refl eq_refl eq_refl).
Defined.

(** C10, as the specification has it, fails: a body can be valid JSON and
    lack the expected fields without being an object, and then it is an
    error of decoding; and when it is the geocoding reply that lacks them,
    darkSky panics. *)
Lemma C10_missing_fields_are_zero_counterexample :
  (exists msg,
     @openWeatherMap.temperature (always (ok 200 listed)) {| openWeatherMap.apiKey := "k" |}
       "London"
     = (0%float, Some (DecodeError msg))) /\
  (exists msg,
     @weatherUnderground.temperature (always (ok 503 plain))
       {| weatherUnderground.apiKey := "k" |} "London"
     = (0%float, Some (DecodeError msg))) /\
  lacks "Results" "Geometry" apology = true /\
  @darkSky.temperature (always (ok 401 apology)) (prints "0") sky "London"
  = Panics "runtime error: index out of range [0] with length 0".
Proof.
  split; [|split; [|split]]; try reflexivity; eexists; reflexivity.
Qed.

(** C10, amended.  A response whose body is a JSON object (or [null])
    without the expected members, such as the description of an error,
    decodes without error and leaves the struct at its zero value:
    OpenWeatherMap then returns 0, and Weather Underground and Dark Sky,
    for its forecast reply once the geocoding reply has given coordinates,
    return [0 + 273.15 = 273.15], each with a nil error. *)
Theorem C10_missing_fields_are_zero `{client : http.Client} `{formatter : fmt.Formatter}
    (city : string) :
  (forall (w : openWeatherMap.t) resp v,
     http.Get (openWeatherMap.url w city) = inl resp ->
     http.body resp = http.Document v -> lacks "main" "temp" v = true ->
     Decode openWeatherMap.shape (http.body resp) openWeatherMap.zero
     = (openWeatherMap.zero, None) /\
     openWeatherMap.temperature w city = (0%float, None)) /\
  (forall (w : weatherUnderground.t) resp v,
     http.Get (weatherUnderground.url w city) = inl resp ->
     http.body resp = http.Document v -> lacks "current_observation" "temp_c" v = true ->
     Decode weatherUnderground.shape (http.body resp) weatherUnderground.zero
     = (weatherUnderground.zero, None) /\
     weatherUnderground.temperature w city = (273.15%float, None)) /\
  (forall (w : darkSky.t) lat lon resp v,
     darkSky.getCoords w city (darkSky.googleKey w) = Returns (lat, lon, None) ->
     http.Get (darkSky.forecastUrl w lat lon) = inl resp ->
     http.body resp = http.Document v -> lacks "Currently" "Temperature" v = true ->
     Decode darkSky.shape (http.body resp) darkSky.zero = (darkSky.zero, None) /\
     darkSky.temperature w city = Returns (273.15%float, None)).
Proof.
  split; [|split].
  - intros w resp v Hg Hb Hl.
    assert (Hd : Decode openWeatherMap.shape (http.body resp) openWeatherMap.zero
                 = (openWeatherMap.zero, None)).
    { rewrite Hb. cbn [Decode]. unfold openWeatherMap.shape.
      apply struct_lacks; [|exact Hl]. now intros [m]. }
    split; [exact Hd|]. unfold openWeatherMap.temperature. now rewrite Hg, Hd.
  - intros w resp v Hg Hb Hl.
    assert (Hd : Decode weatherUnderground.shape (http.body resp) weatherUnderground.zero
                 = (weatherUnderground.zero, None)).
    { rewrite Hb. cbn [Decode]. unfold weatherUnderground.shape.
      apply struct_lacks; [|exact Hl]. now intros [m]. }
    split; [exact Hd|]. unfold weatherUnderground.temperature. now rewrite Hg, Hd.
  - intros w lat lon resp v Hc Hg Hb Hl.
    assert (Hd : Decode darkSky.shape (http.body resp) darkSky.zero = (darkSky.zero, None)).
    { rewrite Hb. cbn [Decode]. unfold darkSky.shape.
      apply struct_lacks; [|exact Hl]. now intros [m]. }
    split; [exact Hd|]. unfold darkSky.temperature. now rewrite Hc, Hg, Hd.
Qed.

Lemma C10_missing_fields_are_zero_witness :
  lacks "main" "temp" apology = true /\
  lacks "current_observation" "temp_c" apology = true /\
  lacks "Currently" "Temperature" apology = true /\
  @openWeatherMap.temperature (always (ok 401 apology)) {| openWeatherMap.apiKey := "k" |} "London"
  = (0%float, None) /\
  @weatherUnderground.temperature (always (ok 401 apology))
    {| weatherUnderground.apiKey := "k" |} "London"
  = (273.15%float, None) /\
  @darkSky.temperature (routes (ok 200 geocoded) (ok 403 apology)) (prints "0") sky "London"
  = Returns (273.15%float, None).
Proof.
  do 3 (split; [reflexivity|]).
  split; [|split].
  - exact (proj2 (proj1 (@C10_missing_fields_are_zero (always (ok 401 apology)) (prints "0")
                           "London") _ _ apology eq_refl eq_refl eq_refl)).
  - exact (proj2 (proj1 (proj2 (@C10_missing_fields_are_zero (always (ok 401 apology))
                                  (prints "0") "London")) _ _ apology eq_refl eq_refl eq_refl)).
  - exact (proj2 (proj2 (proj2 (@C10_missing_fields_are_zero
                                  (routes (ok 200 geocoded) (ok 403 apology)) (prints "0")
                                  "London")) sky _ _ _ apology eq_refl eq_refl eq_refl eq_refl)).
Defined.

(** ** The sequential operation *)

Lemma temperature_range_all (city : string) (len : nat) (rest : list weatherProvider.t)
    (ts : list float64) (sum : float64) :
  outcomes city rest = map (fun k => Returns (k, None)) ts ->
  temperature_range city len rest sum
  = (Returns ((fold_left PrimFloat.add ts sum / float64_of_len len)%float, None), rest).
Proof.
  revert ts sum. induction rest as [|p rest IH]; intros [|t ts] sum H; try discriminate.
  - reflexivity.
  - cbn in H. injection H as Hp Hrest. cbn [temperature_range fold_left].
    rewrite Hp, (IH ts (sum + t)%float Hrest). reflexivity.
Qed.

Lemma temperature_range_first_error (city : string) (len : nat)
    (before after : list weatherProvider.t) (p : weatherProvider.t)
    (ts : list float64) (k : float64) (e : error) (sum : float64) :
  outcomes city before = map (fun k => Returns (k, None)) ts ->
  weatherProvider.call p city = Returns (k, Some e) ->
  temperature_range city len (before ++ p :: after) sum
  = (Returns (0%float, Some e), (before ++ [p])%list).
Proof.
  revert ts sum. induction before as [|q before IH]; intros ts sum H Hp.
  - cbn. now rewrite Hp.
  - destruct ts as [|t ts]; [discriminate|]. cbn in H. injection H as Hq Hrest.
    cbn [app temperature_range]. rewrite Hq, (IH ts (sum + t)%float Hrest Hp). reflexivity.
Qed.

(** C8.  The sequential [temperature] calls the providers in the order of
    the list.  When all of them succeed it has called them all and returns
    the [float64] sum of their temperatures, taken in that order, over
    [float64(len(providers))], with no conversion.  When one of them fails
    after others have succeeded, it returns that error with the zero
    temperature and has called no provider after the one that failed. *)
Theorem C8_sequential_mean (city : string) :
  (forall (providers : list weatherProvider.t) (ts : list float64),
     outcomes city providers = map (fun k => Returns (k, None)) ts ->
     temperature city providers
     = (Returns ((fsum ts / float64_of_len (List.length providers))%float, None), providers)) /\
  (forall (before after : list weatherProvider.t) (p : weatherProvider.t)
          (ts : list float64) (k : float64) (e : error),
     outcomes city before = map (fun k => Returns (k, None)) ts ->
     weatherProvider.call p city = Returns (k, Some e) ->
     temperature city (before ++ p :: after)
     = (Returns (0%float, Some e), (before ++ [p])%list)).
Proof.
  split.
  - intros providers ts H. unfold temperature, fsum. now apply temperature_range_all.
  - intros before after p ts k e H Hp. unfold temperature.
    now apply (temperature_range_first_error city _ before after p ts k e).
Qed.

(** Three providers, the second of which fails; the third would panic if it
    were called. *)
Lemma C8_sequential_mean_witness :
  temperature "London" scenario
  = (Returns (300%float, None), scenario) /\
  temperature "London" [succeeding 290%float; failing timeout; panicking "not called"]
  = (Returns (0%float, Some timeout), [succeeding 290%float; failing timeout]).
Proof.
  split.
  - exact (proj1 (C8_sequential_mean "London") scenario [300%float; 310%float; 290%float]
             eq_refl).
  - exact (proj2 (C8_sequential_mean "London") [succeeding 290%float]
             [panicking "not called"] (failing timeout) [290%float] 0%float timeout
             eq_refl eq_refl).
Defined.

(** * Further properties *)

(** ** The channels *)

Section Channels.

Variable city : string.

Lemma deliver_len_w (s s' : state) (n : nat) :
  deliver city s n = Some s' -> len_w s' = len_w s.
Proof. intros H. now apply deliver_fuel in H. Qed.

Lemma step_len_w (a : action) (s s' : state) :
  step city a s = Some s' -> len_w s' = len_w s.
Proof.
  unfold step. intros Hs.
  destruct a.
  6:{ destruct (caller s) as [[|? ?]|? ?|?|?]; cbv beta iota in Hs; try discriminate;
      now apply deliver_len_w in Hs. }
  all: destruct (caller s) as [[|p rest]|i sum|r|msg]; cbv beta iota in Hs; try discriminate.
  - now injection Hs as <-.
  - now injection Hs as <-.
  - destruct (Nat.ltb i (len_w s)); [|discriminate].
    destruct (temps s); [discriminate|]. now injection Hs as <-.
  - destruct (Nat.ltb i (len_w s)); [|discriminate].
    destruct (errs s); [discriminate|]. now injection Hs as <-.
  - destruct (Nat.ltb i (len_w s)); [discriminate|]. now injection Hs as <-.
Qed.

Lemma deliver_roomy (s s' : state) (n : nat) :
  roomy s -> deliver city s n = Some s' -> roomy s'.
Proof.
  unfold roomy, deliver, unspawned. intros Hr Hs.
  destruct (nth_error (goroutines s) n) as [p|] eqn:Hn; [|discriminate].
  apply remove_nth_length in Hn. cbn [skipn] in *.
  destruct (weatherProvider.call p city) as [[t [e|]]|msg].
  - destruct (Nat.ltb _ _); [|discriminate]. injection Hs as <-.
    cbn [len_w caller goroutines temps errs].
    rewrite !length_app in *. cbn [List.length]. lia.
  - destruct (Nat.ltb _ _); [|discriminate]. injection Hs as <-.
    cbn [len_w caller goroutines temps errs].
    rewrite !length_app in *. cbn [List.length]. lia.
  - injection Hs as <-. cbn [len_w caller goroutines temps errs List.length].
    rewrite !length_app in *. lia.
Qed.

Lemma step_roomy (a : action) (s s' : state) :
  roomy s -> step city a s = Some s' -> roomy s'.
Proof.
  intros Hr Hs. unfold step in Hs.
  destruct a.
  6:{ destruct (caller s) as [[|? ?]|? ?|?|?] eqn:Hm; cbv beta iota in Hs; try discriminate;
      eapply deliver_roomy; eassumption. }
  all: unfold roomy, unspawned in *.
  all: destruct (caller s) as [[|p rest]|i sum|r|msg]; cbv beta iota in Hs; try discriminate.
  - injection Hs as <-. cbn in *. rewrite length_app. cbn. lia.
  - injection Hs as <-. cbn in *. lia.
  - destruct (Nat.ltb i (len_w s)); [|discriminate].
    destruct (temps s); [discriminate|]. injection Hs as <-. cbn in *. lia.
  - destruct (Nat.ltb i (len_w s)); [|discriminate].
    destruct (errs s); [discriminate|]. injection Hs as <-. cbn in *. lia.
  - destruct (Nat.ltb i (len_w s)); [discriminate|]. injection Hs as <-. cbn in *. lia.
Qed.

Lemma exec_roomy (sched : list action) (s s' : state) :
  roomy s -> exec city sched s = Some s' -> roomy s' /\ len_w s' = len_w s.
Proof.
  revert s. induction sched as [|a sched IH]; intros s Hr He; cbn in He.
  - injection He as <-. auto.
  - destruct (step city a s) as [s1|] eqn:Hs; [|discriminate].
    destruct (IH s1 (step_roomy a s s1 Hr Hs) He) as [H1 H2].
    split; [exact H1|]. rewrite H2. exact (step_len_w a s s1 Hs).
Qed.

Lemma roomy_init (w : multiWeatherProvider.t) : roomy (init w).
Proof. unfold roomy, init, unspawned. cbn. lia. Qed.

(** A goroutine that is out can always send. *)
Lemma roomy_deliver (s : state) (n : nat) (p : weatherProvider.t) :
  roomy s -> nth_error (goroutines s) n = Some p ->
  exists s', deliver city s n = Some s'.
Proof.
  unfold roomy, deliver. intros Hr Hn. rewrite Hn.
  assert (Hg : 0 < List.length (goroutines s)).
  { destruct (goroutines s); [destruct n; discriminate|cbn; lia]. }
  destruct (weatherProvider.call p city) as [[t [e|]]|msg].
  - assert (Hlt : Nat.ltb (List.length (errs s)) (len_w s) = true) by (apply Nat.ltb_lt; lia).
    rewrite Hlt. eauto.
  - assert (Hlt : Nat.ltb (List.length (temps s)) (len_w s) = true) by (apply Nat.ltb_lt; lia).
    rewrite Hlt. eauto.
  - eauto.
Qed.

End Channels.

(** X1.  Both channels have room for every provider: in every state an
    interleaving reaches, neither channel holds more than [len(w)] values,
    and unless the process has crashed every goroutine still out can send
    what its call returned, also after the caller has returned. *)
Theorem senders_never_block (city : string) (w : multiWeatherProvider.t)
    (sched : list action) (s : state) :
  exec city sched (init w) = Some s ->
  List.length (temps s) <= List.length w /\
  List.length (errs s) <= List.length w /\
  forall n p, nth_error (goroutines s) n = Some p ->
              (forall msg, caller s <> Crashed msg) ->
              exists s', step city (Deliver n) s = Some s'.
Proof.
  intros He.
  destruct (exec_roomy city sched (init w) s (roomy_init w) He) as [Hr Hl].
  cbn in Hl. unfold roomy in Hr. repeat split; try lia.
  intros n p Hn Hc.
  destruct (roomy_deliver city s n p Hr Hn) as [s' Hs']. exists s'.
  unfold step. destruct (caller s) as [[|? ?]|? ?|?|msg]; auto.
  exfalso. now apply (Hc msg).
Qed.

(** After the error has been returned, the provider that was still out
    sends its temperature, which nobody will receive. *)
Lemma senders_never_block_witness :
  exec "London" hurried (init oneDown) = Some returnedEarly /\
  List.length (temps returnedEarly) <= List.length oneDown /\
  List.length (errs returnedEarly) <= List.length oneDown /\
  forall n p, nth_error (goroutines returnedEarly) n = Some p ->
              (forall msg, caller returnedEarly <> Crashed msg) ->
              exists s', step "London" (Deliver n) returnedEarly = Some s'.
Proof.
  split; [reflexivity|].
  exact (senders_never_block "London" oneDown hurried returnedEarly eq_refl).
Defined.

(** ** What decides the result *)

Lemma Inv_success_all_arrived (city : string) (w : multiWeatherProvider.t)
    (d : list (outcome (float64 * option error))) (s : state) :
  Inv city w d s -> List.length w <= List.length (tempsOf d) ->
  errsOf d = [] /\ List.length (tempsOf d) = List.length w /\
  goroutines s = [] /\ unspawned s = [] /\ Permutation d (outcomes city w).
Proof.
  intros HI Hn. pose proof (Inv_arrived_le city w d s HI) as Hc.
  pose proof (outcome_count d) as Ho.
  assert (He : List.length (errsOf d) = 0) by lia.
  assert (HG : List.length (goroutines s) = 0) by lia.
  assert (HU : List.length (unspawned s) = 0) by lia.
  apply length_zero_iff_nil in He, HG, HU.
  repeat split; auto; try lia.
  destruct HI as [_ HP _ _]. rewrite HG, HU in HP. cbn in HP. now rewrite app_nil_r in HP.
Qed.

(** X2.  What [temperature] returns is decided by the order in which the
    outcomes arrive on the channels, and by nothing else: it is the first
    error that arrived with the zero temperature, or else the conversion of
    the mean of the temperatures; which of two ready channels a [select]
    takes does not matter.  A nil error is returned only when the calls of
    all providers are back. *)
Theorem arrivals_decide (city : string) (w : multiWeatherProvider.t)
    (sched : list action) (s : state) (r : float64 * option error) :
  exec city sched (init w) = Some s -> caller s = Returned r ->
  r = verdict (List.length w) (arrivals city sched (init w)) /\
  (snd r = None ->
   goroutines s = [] /\
   Permutation (arrivals city sched (init w)) (outcomes city w)).
Proof.
  intros He Hm.
  destruct (reachable_Sound city w sched s He) as [HI|(msg & Hm' & _)]; [|congruence].
  set (d := arrivals city sched (init w)) in *.
  pose proof (inv_caller city w d s HI) as Hmain. rewrite Hm in Hmain.
  unfold verdict. destruct Hmain as [[Hn ->]|(e & -> & He')].
  - destruct (Inv_success_all_arrived city w d s HI Hn) as (H1 & H2 & H3 & _ & H5).
    rewrite H1. split.
    + rewrite firstn_all2 by lia. reflexivity.
    + auto.
  - split; [|discriminate]. destruct (errsOf d); [discriminate|]. now injection He' as ->.
Qed.

Lemma arrivals_decide_witness :
  exec "London" hurried (init oneDown) = Some returnedEarly /\
  caller returnedEarly = Returned (0%float, Some timeout) /\
  (0%float, Some timeout) = verdict (List.length oneDown) (arrivals "London" hurried (init oneDown)) /\
  (snd (0%float, Some timeout) = None ->
   goroutines returnedEarly = [] /\
   Permutation (arrivals "London" hurried (init oneDown)) (outcomes "London" oneDown)).
Proof.
  do 2 (split; [reflexivity|]).
  exact (arrivals_decide "London" oneDown hurried returnedEarly _ eq_refl eq_refl).
Defined.

(** ** Interleavings that exist *)

Lemma exec_spawn (city : string) (n : nat) (rest G : list weatherProvider.t)
    (T : list float64) (E : list error) :
  exec city (repeat Spawn (List.length rest))
    {| len_w := n; caller := Spawning rest; goroutines := G; temps := T; errs := E |}
  = Some {| len_w := n; caller := Spawning []; goroutines := (G ++ rest)%list;
            temps := T; errs := E |}.
Proof.
  revert G. induction rest as [|p rest IH]; intros G.
  - cbn. now rewrite app_nil_r.
  - cbn [List.length repeat exec]. unfold step at 1. cbn [caller len_w goroutines temps errs].
    rewrite IH. now rewrite <- app_assoc.
Qed.

(** X3.  The first error wins at once: when the [k]th provider fails, the
    interleaving in which all goroutines are spawned and the call of that
    provider is the first to come back returns its error, with the zero
    temperature, after [len(w) + 3] steps, while the goroutines of all other
    providers are still out.  So every provider that fails can be the one
    whose error is returned. *)
Theorem first_back_wins (city : string) (w : multiWeatherProvider.t) (k : nat)
    (p : weatherProvider.t) (x : float64) (e : error) :
  nth_error w k = Some p -> weatherProvider.call p city = Returns (x, Some e) ->
  exec city (firstBack (List.length w) k) (init w)
  = Some {| len_w := List.length w; caller := Returned (0%float, Some e);
            goroutines := (firstn k w ++ skipn (S k) w)%list; temps := []; errs := [] |} /\
  multiWeatherProvider.temperature w city (firstBack (List.length w) k) = Some (0%float, Some e) /\
  List.length (firstBack (List.length w) k) = List.length w + 3 /\
  S (List.length (firstn k w ++ skipn (S k) w)) = List.length w.
Proof.
  intros Hk Hp.
  assert (Hpos : Nat.ltb 0 (List.length w) = true).
  { apply Nat.ltb_lt. destruct w; [destruct k; discriminate|cbn; lia]. }
  assert (He : exec city (firstBack (List.length w) k) (init w)
               = Some {| len_w := List.length w; caller := Returned (0%float, Some e);
                         goroutines := (firstn k w ++ skipn (S k) w)%list;
                         temps := []; errs := [] |}).
  { unfold firstBack, init. rewrite exec_app, exec_spawn. cbn [app].
    cbn [exec]. unfold step at 1. cbn [caller len_w goroutines temps errs].
    unfold step at 1. cbn [caller]. unfold deliver.
    cbn [caller len_w goroutines temps errs]. rewrite Hk, Hp.
    cbn [List.length]. rewrite Hpos. cbn [app].
    unfold step at 1. cbn [caller len_w goroutines temps errs]. rewrite Hpos.
    reflexivity. }
  split; [exact He|]. split.
  - unfold multiWeatherProvider.temperature. now rewrite He.
  - split.
    + unfold firstBack. rewrite length_app, repeat_length. cbn. lia.
    + now apply (remove_nth_length w k p).
Qed.

Lemma first_back_wins_witness :
  nth_error oneDown 1 = Some (failing timeout) /\
  weatherProvider.call (failing timeout) "London" = Returns (0%float, Some timeout) /\
  exec "London" (firstBack (List.length oneDown) 1) (init oneDown)
  = Some {| len_w := List.length oneDown; caller := Returned (0%float, Some timeout);
            goroutines := (firstn 1 oneDown ++ skipn 2 oneDown)%list;
            temps := []; errs := [] |} /\
  multiWeatherProvider.temperature oneDown "London" (firstBack (List.length oneDown) 1)
  = Some (0%float, Some timeout) /\
  List.length (firstBack (List.length oneDown) 1) = List.length oneDown + 3 /\
  S (List.length (firstn 1 oneDown ++ skipn 2 oneDown)) = List.length oneDown.
Proof.
  do 2 (split; [reflexivity|]).
  exact (first_back_wins "London" oneDown 1 (failing timeout) 0%float timeout eq_refl eq_refl).
Defined.

(** ** Panics *)

Lemma returned_error_origin (city : string) (w : multiWeatherProvider.t)
    (sched : list action) (s : state) (t : float64) (e : error) :
  exec city sched (init w) = Some s -> caller s = Returned (t, Some e) ->
  t = 0%float /\ exists q x, In q w /\ weatherProvider.call q city = Returns (x, Some e).
Proof.
  intros He Hm.
  destruct (reachable_Sound city w sched s He) as [HI|(msg & Hm' & _)]; [|congruence].
  set (d := arrivals city sched (init w)) in *.
  pose proof (inv_caller city w d s HI) as Hmain. rewrite Hm in Hmain.
  destruct Hmain as [[_ H]|(e' & H & He')]; [discriminate|].
  injection H as -> ->. split; [reflexivity|].
  assert (Hin : In e' (errsOf d))
    by (destruct (errsOf d); [discriminate|injection He' as ->; now left]).
  apply In_errsOf in Hin. destruct Hin as [x Hin].
  assert (Hin' : In (Returns (x, Some e')) (outcomes city w)).
  { eapply Permutation_in; [exact (inv_perm city w d s HI)|]. apply in_or_app. now left. }
  apply in_map_iff in Hin'. destruct Hin' as (q & Hq & Hqw). eauto.
Qed.

Lemma returned_success_no_panic (city : string) (w : multiWeatherProvider.t)
    (sched : list action) (s : state) (t : float64) :
  exec city sched (init w) = Some s -> caller s = Returned (t, None) ->
  panicsOf (outcomes city w) = [].
Proof.
  intros He Hm.
  destruct (reachable_Sound city w sched s He) as [HI|(msg & Hm' & _)]; [|congruence].
  set (d := arrivals city sched (init w)) in *.
  pose proof (inv_caller city w d s HI) as Hmain. rewrite Hm in Hmain.
  destruct Hmain as [[Hn _]|(e' & H & _)]; [|discriminate].
  destruct (Inv_success_all_arrived city w d s HI Hn) as (_ & _ & _ & _ & HP).
  pose proof (Permutation_flat_map
    (fun o : outcome (float64 * option error) =>
       match o with Panics msg => [msg] | _ => [] end) HP) as HF.
  fold (panicsOf d) in HF. fold (panicsOf (outcomes city w)) in HF.
  rewrite (inv_panics city w d s HI) in HF. now apply Permutation_nil in HF.
Qed.

(** X4.  Nothing recovers the panic of a provider.  When the [k]th provider
    panics, the interleaving in which its call is the first to come back
    ends the process; whenever [temperature] does return, it returns the
    error of a provider that failed, never a temperature; and when no
    provider fails, [temperature] returns under no interleaving. *)
Theorem panic_ends_the_process (city : string) (w : multiWeatherProvider.t) (k : nat)
    (p : weatherProvider.t) (msg : string) :
  nth_error w k = Some p -> weatherProvider.call p city = Panics msg ->
  exec city (repeat Spawn (List.length w) ++ [Deliver k]) (init w)
  = Some {| len_w := List.length w; caller := Crashed msg;
            goroutines := (firstn k w ++ skipn (S k) w)%list; temps := []; errs := [] |} /\
  (forall sched r, multiWeatherProvider.temperature w city sched = Some r ->
     exists e, r = (0%float, Some e) /\
               exists q x, In q w /\ weatherProvider.call q city = Returns (x, Some e)) /\
  (errsOf (outcomes city w) = [] ->
   forall sched, multiWeatherProvider.temperature w city sched = None).
Proof.
  intros Hk Hp.
  assert (Hpan : panicsOf (outcomes city w) <> []).
  { intros Hnil. assert (Hin : In msg (panicsOf (outcomes city w))).
    { apply In_panicsOf. rewrite <- Hp.
      apply (in_map (fun q => weatherProvider.call q city)). eapply nth_error_In. exact Hk. }
    rewrite Hnil in Hin. contradiction. }
  assert (Hret : forall sched r, multiWeatherProvider.temperature w city sched = Some r ->
            exists e, r = (0%float, Some e) /\
               exists q x, In q w /\ weatherProvider.call q city = Returns (x, Some e)).
  { intros sched r Hr. apply temperature_returned in Hr. destruct Hr as (s & He & Hm).
    destruct r as [t [e|]].
    - destruct (returned_error_origin city w sched s t e He Hm) as [-> Ho]. eauto.
    - exfalso. apply Hpan. exact (returned_success_no_panic city w sched s t He Hm). }
  split; [|split].
  - unfold init. rewrite exec_app, exec_spawn. cbn [app exec].
    unfold step. cbn [caller]. unfold deliver. cbn [goroutines]. rewrite Hk, Hp. reflexivity.
  - exact Hret.
  - intros Hnil sched.
    destruct (multiWeatherProvider.temperature w city sched) as [r|] eqn:Hr; [|reflexivity].
    exfalso. destruct (Hret sched r Hr) as (e & _ & q & x & Hq & Hqc).
    assert (Hin : In e (errsOf (outcomes city w))).
    { apply (In_errsOf_intro x). rewrite <- Hqc.
      apply (in_map (fun q => weatherProvider.call q city)). exact Hq. }
    rewrite Hnil in Hin. contradiction.
Qed.

Lemma panic_ends_the_process_witness :
  nth_error oneBroken 2
  = Some (panicking "runtime error: index out of range [0] with length 0") /\
  errsOf (outcomes "London" oneBroken) = [] /\
  exec "London" (repeat Spawn (List.length oneBroken) ++ [Deliver 2]) (init oneBroken)
  = Some {| len_w := List.length oneBroken;
            caller := Crashed "runtime error: index out of range [0] with length 0";
            goroutines := (firstn 2 oneBroken ++ skipn 3 oneBroken)%list;
            temps := []; errs := [] |} /\
  (forall sched r, multiWeatherProvider.temperature oneBroken "London" sched = Some r ->
     exists e, r = (0%float, Some e) /\
               exists q x, In q oneBroken /\
                           weatherProvider.call q "London" = Returns (x, Some e)) /\
  (errsOf (outcomes "London" oneBroken) = [] ->
   forall sched, multiWeatherProvider.temperature oneBroken "London" sched = None).
Proof.
  do 2 (split; [reflexivity|]).
  exact (panic_ends_the_process "London" oneBroken 2
           (panicking "runtime error: index out of range [0] with length 0")
           "runtime error: index out of range [0] with length 0" eq_refl eq_refl).
Defined.

(** ** The concurrent and the sequential operation *)

Lemma arrivals_app (city : string) (sched sched' : list action) (s s1 : state) :
  exec city sched s = Some s1 ->
  arrivals city (sched ++ sched') s = (arrivals city sched s ++ arrivals city sched' s1)%list.
Proof.
  revert s. induction sched as [|a sched IH]; intros s He; cbn in *.
  - now injection He as <-.
  - destruct (step city a s) as [s2|]; [|discriminate].
    rewrite (IH s2 He). now rewrite app_assoc.
Qed.

Lemma arrivals_spawn (city : string) (n : nat) (rest G : list weatherProvider.t)
    (T : list float64) (E : list error) :
  arrivals city (repeat Spawn (List.length rest))
    {| len_w := n; caller := Spawning rest; goroutines := G; temps := T; errs := E |} = [].
Proof.
  revert G. induction rest as [|p rest IH]; intros G; [reflexivity|].
  cbn [List.length repeat arrivals]. unfold step at 1.
  cbn [caller len_w goroutines temps errs arrival app]. apply IH.
Qed.

Lemma exec_deliver_all (city : string) (n i : nat) (sum : float64)
    (G : list weatherProvider.t) (ts T : list float64) (E : list error) :
  outcomes city G = map (fun k => Returns (k, None)) ts ->
  List.length T + List.length G <= n ->
  exec city (repeat (Deliver 0) (List.length G))
    {| len_w := n; caller := Collecting i sum; goroutines := G; temps := T; errs := E |}
  = Some {| len_w := n; caller := Collecting i sum; goroutines := [];
            temps := (T ++ ts)%list; errs := E |} /\
  arrivals city (repeat (Deliver 0) (List.length G))
    {| len_w := n; caller := Collecting i sum; goroutines := G; temps := T; errs := E |}
  = outcomes city G.
Proof.
  revert ts T. induction G as [|p G IH]; intros [|t ts] T Hw Hn; try discriminate.
  - cbn. now rewrite app_nil_r.
  - cbn in Hw. injection Hw as Hp Hw.
    assert (Hlt : Nat.ltb (List.length T) n = true) by (apply Nat.ltb_lt; cbn in Hn; lia).
    assert (Hs : step city (Deliver 0)
                   {| len_w := n; caller := Collecting i sum; goroutines := p :: G;
                      temps := T; errs := E |}
                 = Some {| len_w := n; caller := Collecting i sum; goroutines := G;
                           temps := (T ++ [t])%list; errs := E |}).
    { unfold step. cbn [caller]. unfold deliver. cbn [goroutines nth_error temps len_w].
      rewrite Hp, Hlt. reflexivity. }
    destruct (IH ts (T ++ [t])%list Hw) as [He Ha].
    { rewrite length_app. cbn in *. lia. }
    cbn [List.length repeat exec arrivals]. rewrite Hs, He, Ha.
    cbn [arrival goroutines nth_error]. rewrite <- app_assoc. cbn. now rewrite Hp.
Qed.

Lemma exec_recv_all (city : string) (n i : nat) (sum : float64)
    (T : list float64) (E : list error) :
  i + List.length T <= n ->
  exec city (repeat RecvTemp (List.length T))
    {| len_w := n; caller := Collecting i sum; goroutines := []; temps := T; errs := E |}
  = Some {| len_w := n; caller := Collecting (i + List.length T) (fold_left PrimFloat.add T sum);
            goroutines := []; temps := []; errs := E |} /\
  arrivals city (repeat RecvTemp (List.length T))
    {| len_w := n; caller := Collecting i sum; goroutines := []; temps := T; errs := E |} = [].
Proof.
  revert i sum. induction T as [|t T IH]; intros i sum Hn.
  - cbn. now rewrite Nat.add_0_r.
  - assert (Hlt : Nat.ltb i n = true) by (apply Nat.ltb_lt; cbn in Hn; lia).
    assert (Hs : step city RecvTemp
                   {| len_w := n; caller := Collecting i sum; goroutines := [];
                      temps := t :: T; errs := E |}
                 = Some {| len_w := n; caller := Collecting (S i) (sum + t)%float;
                           goroutines := []; temps := T; errs := E |}).
    { unfold step. cbn [caller len_w temps]. now rewrite Hlt. }
    destruct (IH (S i) (sum + t)%float) as [He Ha]; [cbn in Hn; lia|].
    cbn [List.length repeat exec arrivals]. rewrite Hs, He, Ha.
    cbn [arrival app fold_left]. now rewrite Nat.add_succ_r.
Qed.

Lemma in_declaration_order (city : string) (w : multiWeatherProvider.t) (ts : list float64) :
  outcomes city w = map (fun k => Returns (k, None)) ts ->
  multiWeatherProvider.temperature w city (inDeclarationOrder (List.length w))
  = Some (reported (fsum ts) (List.length w), None) /\
  arrivals city (inDeclarationOrder (List.length w)) (init w) = outcomes city w.
Proof.
  intros Hw.
  assert (Hl : List.length ts = List.length w).
  { apply (f_equal (@List.length _)) in Hw. unfold outcomes in Hw.
    now rewrite !length_map in Hw. }
  pose proof (exec_spawn city (List.length w) w [] [] []) as H1.
  pose proof (arrivals_spawn city (List.length w) w [] [] []) as A1.
  cbn [app] in H1.
  assert (H2 : exec city [Collect]
                 {| len_w := List.length w; caller := Spawning []; goroutines := w;
                    temps := []; errs := [] |}
               = Some {| len_w := List.length w; caller := Collecting 0 0%float;
                         goroutines := w; temps := []; errs := [] |}) by reflexivity.
  destruct (exec_deliver_all city (List.length w) 0 0%float w ts [] [] Hw) as [H3 A3];
    [cbn; lia|]. cbn [app] in H3.
  destruct (exec_recv_all city (List.length w) 0 0%float ts []) as [H4 A4]; [lia|].
  assert (H5 : Nat.ltb (0 + List.length ts) (List.length w) = false).
  { rewrite Hl. cbn. apply Nat.ltb_irrefl. }
  assert (Hgen :
    returned (exec city (repeat Spawn (List.length w) ++ [Collect]
                           ++ repeat (Deliver 0) (List.length w)
                           ++ repeat RecvTemp (List.length ts) ++ [Return]) (init w))
    = Some (reported (fsum ts) (List.length w), None) /\
    arrivals city (repeat Spawn (List.length w) ++ [Collect]
                     ++ repeat (Deliver 0) (List.length w)
                     ++ repeat RecvTemp (List.length ts) ++ [Return]) (init w)
    = outcomes city w).
  { unfold init. split.
    - rewrite exec_app, H1, exec_app, H2, exec_app, H3, exec_app, H4.
      cbn [exec]. unfold step. cbn [caller len_w goroutines temps errs].
      rewrite H5. reflexivity.
    - rewrite (arrivals_app _ _ _ _ _ H1), A1.
      rewrite (arrivals_app _ [Collect] _ _ _ H2).
      rewrite (arrivals_app _ _ _ _ _ H3), A3.
      rewrite (arrivals_app _ _ _ _ _ H4), A4.
      cbn [arrivals]. unfold step. cbn [caller len_w]. rewrite H5.
      cbn. now rewrite app_nil_r. }
  rewrite Hl in Hgen. exact Hgen.
Qed.

(** X5.  When every provider succeeds, the concurrent operation returns the
    conversion to Fahrenheit of what the sequential one returns, whenever
    the temperatures arrive in the order of the providers; the interleaving
    in which all goroutines are spawned, the calls come back in that order
    and the caller then receives is one in which they do. *)
Theorem concurrent_converts_sequential (city : string) (w : multiWeatherProvider.t)
    (ts : list float64) :
  outcomes city w = map (fun k => Returns (k, None)) ts ->
  exists k : float64,
    fst (temperature city w) = Returns (k, None) /\
    multiWeatherProvider.temperature w city (inDeclarationOrder (List.length w))
    = Some (((k - 273.15) * 1.8 + 32)%float, None) /\
    tempsOf (arrivals city (inDeclarationOrder (List.length w)) (init w)) = ts /\
    forall sched r,
      multiWeatherProvider.temperature w city sched = Some r ->
      tempsOf (arrivals city sched (init w)) = ts ->
      r = (((k - 273.15) * 1.8 + 32)%float, None).
Proof.
  intros Hw. exists (fsum ts / float64_of_len (List.length w))%float.
  destruct (in_declaration_order city w ts Hw) as [Hd Ha].
  split; [|split; [|split]].
  - unfold temperature. rewrite (temperature_range_all city _ w ts 0%float Hw). reflexivity.
  - exact Hd.
  - rewrite Ha, Hw. apply tempsOf_succeed.
  - intros sched r Hr Hts. apply temperature_returned in Hr. destruct Hr as (s & He & Hm).
    destruct (returned_all_succeed city w ts sched s r Hw He Hm) as [_ ->].
    now rewrite Hts.
Qed.

Lemma concurrent_converts_sequential_witness :
  outcomes "London" mild
  = map (fun k => Returns (k, None)) [290.1%float; 290.2%float; 290.4%float] /\
  fst (temperature "London" mild) = Returns (290.23333333333329%float, None) /\
  multiWeatherProvider.temperature mild "London" (inDeclarationOrder 3)
  = Some (62.749999999999972%float, None) /\
  exists k : float64,
    fst (temperature "London" mild) = Returns (k, None) /\
    multiWeatherProvider.temperature mild "London" (inDeclarationOrder (List.length mild))
    = Some (((k - 273.15) * 1.8 + 32)%float, None) /\
    tempsOf (arrivals "London" (inDeclarationOrder (List.length mild)) (init mild))
    = [290.1%float; 290.2%float; 290.4%float] /\
    forall sched r,
      multiWeatherProvider.temperature mild "London" sched = Some r ->
      tempsOf (arrivals "London" sched (init mild)) = [290.1%float; 290.2%float; 290.4%float] ->
      r = (((k - 273.15) * 1.8 + 32)%float, None).
Proof.
  do 3 (split; [reflexivity|]).
  exact (concurrent_converts_sequential "London" mild
           [290.1%float; 290.2%float; 290.4%float] eq_refl).
Defined.

(** ** More about the sequential operation *)

Lemma temperature_range_prefix (city : string) (len : nat) (rest : list weatherProvider.t)
    (sum : float64) :
  exists tail, rest = (snd (temperature_range city len rest sum) ++ tail)%list.
Proof.
  revert sum. induction rest as [|p rest IH]; intros sum; cbn [temperature_range].
  - now exists [].
  - destruct (weatherProvider.call p city) as [[t [e|]]|msg].
    + now exists rest.
    + destruct (IH (sum + t)%float) as [tail Ht].
      destruct (temperature_range city len rest (sum + t)%float) as [r called].
      exists tail. cbn in *. now rewrite <- Ht.
    + now exists rest.
Qed.

Lemma temperature_range_first_panic (city : string) (len : nat)
    (before after : list weatherProvider.t) (p : weatherProvider.t)
    (ts : list float64) (msg : string) (sum : float64) :
  outcomes city before = map (fun k => Returns (k, None)) ts ->
  weatherProvider.call p city = Panics msg ->
  temperature_range city len (before ++ p :: after) sum = (Panics msg, (before ++ [p])%list).
Proof.
  revert ts sum. induction before as [|q before IH]; intros ts sum H Hp.
  - cbn. now rewrite Hp.
  - destruct ts as [|t ts]; [discriminate|]. cbn in H. injection H as Hq Hrest.
    cbn [app temperature_range]. rewrite Hq, (IH ts (sum + t)%float Hrest Hp). reflexivity.
Qed.

Lemma first_not_to_succeed (city : string) (providers : list weatherProvider.t) :
  (exists ts, outcomes city providers = map (fun k => Returns (k, None)) ts) \/
  (exists before p after ts,
     providers = (before ++ p :: after)%list /\
     outcomes city before = map (fun k => Returns (k, None)) ts /\
     ((exists x e, weatherProvider.call p city = Returns (x, Some e)) \/
      (exists msg, weatherProvider.call p city = Panics msg))).
Proof.
  induction providers as [|p providers IH].
  - left. now exists [].
  - destruct (weatherProvider.call p city) as [[t [e|]]|msg] eqn:Hp.
    + right. exists [], p, providers, []. repeat split. left. eauto.
    + destruct IH as [[ts Hts]|(before & q & after & ts & -> & Hts & Hq)].
      * left. exists (t :: ts). cbn. now rewrite Hp, <- Hts.
      * right. exists (p :: before), q, after, (t :: ts). repeat split; auto.
        cbn. now rewrite Hp, <- Hts.
    + right. exists [], p, providers, []. repeat split. right. eauto.
Qed.

(** X6.  The sequential [temperature] calls the providers from the first on,
    without leaving one out, and stops at the first that does not succeed:
    the providers it has called are a prefix of the list.  If that provider
    panics, the panic is the outcome, and no provider after it is called.
    Every list of providers either succeeds as a whole or has a first
    provider that fails or panics. *)
Theorem sequential_stops_at_the_first (city : string) :
  (forall providers : list weatherProvider.t,
     exists rest, providers = (snd (temperature city providers) ++ rest)%list) /\
  (forall (before after : list weatherProvider.t) (p : weatherProvider.t)
          (ts : list float64) (msg : string),
     outcomes city before = map (fun k => Returns (k, None)) ts ->
     weatherProvider.call p city = Panics msg ->
     temperature city (before ++ p :: after) = (Panics msg, (before ++ [p])%list)) /\
  (forall providers : list weatherProvider.t,
     (exists ts, outcomes city providers = map (fun k => Returns (k, None)) ts) \/
     (exists before p after ts,
        providers = (before ++ p :: after)%list /\
        outcomes city before = map (fun k => Returns (k, None)) ts /\
        ((exists x e, weatherProvider.call p city = Returns (x, Some e)) \/
         (exists msg, weatherProvider.call p city = Panics msg)))).
Proof.
  split; [|split].
  - intros providers. apply temperature_range_prefix.
  - intros before after p ts msg H Hp. unfold temperature.
    now apply (temperature_range_first_panic city _ before after p ts msg).
  - apply first_not_to_succeed.
Qed.

Lemma sequential_stops_at_the_first_witness :
  temperature "London" (oneBroken ++ [failing timeout])
  = (Panics "runtime error: index out of range [0] with length 0", oneBroken).
Proof.
  exact (proj1 (proj2 (sequential_stops_at_the_first "London"))
           [succeeding 290%float; succeeding 291%float] [failing timeout]
           (panicking "runtime error: index out of range [0] with length 0")
           [290%float; 291%float] _ eq_refl eq_refl).
Defined.

(** ** More about the providers *)

Lemma float64_mistyped (cur : float64) (x : json.value) :
  mistyped x = true -> json.float64_ cur x = (cur, Some (json.typeError x "float64")).
Proof. destruct x as [| |[f|]| | |]; try discriminate; reflexivity. Qed.

Lemma shapeG_noResults (v : json.value) :
  noResults v = true -> darkSky.shapeG darkSky.zeroG v = (darkSky.zeroG, None).
Proof.
  intros H. destruct v as [| | | | |members]; try discriminate; [reflexivity|].
  unfold darkSky.shapeG. cbn [json.struct noResults] in *. apply fold_member_inert.
  intros m Hin Hm. cbn [json.name json.store] in *.
  rewrite forallb_forall in H. specialize (H m Hin). rewrite Hm in H.
  unfold json.within. destruct (snd m) as [| | | |[|x elems]|]; try discriminate; reflexivity.
Qed.

Section MoreProviders.

Context `{client : http.Client}.

(** X7.  All that [getCoords] can do: it panics exactly when the geocoding
    response decodes, without error, to no result; it returns an error,
    with zero coordinates, exactly when the GET fails in the transport or
    the body does not decode; and it returns coordinates exactly when
    there is a result, and then those of the first result. *)
Theorem getCoords_outcomes (w : darkSky.t) (city key : string) :
  (forall msg,
     darkSky.getCoords w city key = Panics msg <->
     msg = "runtime error: index out of range [0] with length 0" /\
     exists res g, http.Get (darkSky.geocodeUrl city key) = inl res /\
                   Decode darkSky.shapeG (http.body res) darkSky.zeroG = (g, None) /\
                   json.elems (darkSky.Results g) = []) /\
  (forall lat lon e,
     darkSky.getCoords w city key = Returns (lat, lon, Some e) <->
     lat = 0%float /\ lon = 0%float /\
     failure (darkSky.geocodeUrl city key) darkSky.shapeG darkSky.zeroG e) /\
  (forall lat lon,
     darkSky.getCoords w city key = Returns (lat, lon, None) <->
     exists res g r0 rest,
       http.Get (darkSky.geocodeUrl city key) = inl res /\
       Decode darkSky.shapeG (http.body res) darkSky.zeroG = (g, None) /\
       json.elems (darkSky.Results g) = r0 :: rest /\
       lat = darkSky.Lat (darkSky.Location (darkSky.Geometry r0)) /\
       lon = darkSky.Lng (darkSky.Location (darkSky.Geometry r0))).
Proof.
  split; [|split].
  - intros msg. unfold darkSky.getCoords. split.
    + destruct (http.Get (darkSky.geocodeUrl city key)) as [res|err]; [|discriminate].
      destruct (Decode darkSky.shapeG (http.body res) darkSky.zeroG) as [g [e|]] eqn:Hd;
        [discriminate|].
      destruct (json.elems (darkSky.Results g)) as [|r0 rest] eqn:Hr; [|discriminate].
      intros [= <-]. split; [reflexivity|]. exists res, g. auto.
    + intros (-> & res & g & -> & -> & ->). reflexivity.
  - intros lat lon e. rewrite getCoords_fetch. split.
    + destruct (fetch _ _ _) as [g|err] eqn:Hf.
      * destruct (nth_error (json.elems (darkSky.Results g)) 0); discriminate.
      * intros [= <- <- <-]. repeat split.
        now apply (fetch_failure _ _ _ _ darkSky_shapeG_wellKinded).
    + intros (-> & -> & Hf). apply (fetch_failure _ _ _ _ darkSky_shapeG_wellKinded) in Hf.
      now rewrite Hf.
  - intros lat lon. unfold darkSky.getCoords. split.
    + destruct (http.Get (darkSky.geocodeUrl city key)) as [res|err]; [|discriminate].
      destruct (Decode darkSky.shapeG (http.body res) darkSky.zeroG) as [g [e|]] eqn:Hd;
        [discriminate|].
      destruct (json.elems (darkSky.Results g)) as [|r0 rest] eqn:Hr; [discriminate|].
      intros [= <- <-]. exists res, g, r0, rest. auto.
    + intros (res & g & r0 & rest & -> & -> & -> & -> & ->). reflexivity.
Qed.

(** X8.  A geocoding response, of whatever status, whose body is [null] or
    an object in which [results] is missing, [null] or empty, makes
    [getCoords] panic, and [darkSky.temperature] with it: the reply for a
    place that is not known, or for a key that is refused, ends in a panic,
    not in an error. *)
Theorem geocoding_without_results_panics (w : darkSky.t) (city : string)
    (res : http.Response) (v : json.value) :
  http.Get (darkSky.geocodeUrl city (darkSky.googleKey w)) = inl res ->
  http.body res = http.Document v -> noResults v = true ->
  darkSky.getCoords w city (darkSky.googleKey w)
  = Panics "runtime error: index out of range [0] with length 0" /\
  forall formatter : fmt.Formatter,
    @darkSky.temperature client formatter w city
    = Panics "runtime error: index out of range [0] with length 0".
Proof.
  intros Hg Hb Hn.
  assert (Hc : darkSky.getCoords w city (darkSky.googleKey w)
               = Panics "runtime error: index out of range [0] with length 0").
  { unfold darkSky.getCoords. rewrite Hg, Hb. cbn [Decode].
    now rewrite (shapeG_noResults v Hn). }
  split; [exact Hc|]. intros formatter. unfold darkSky.temperature. now rewrite Hc.
Qed.

End MoreProviders.

Lemma getCoords_outcomes_witness :
  @darkSky.getCoords (always (ok 200 geocoded)) sky "London" "g"
  = Returns (51.5%float, (-0.125)%float, None) /\
  @darkSky.getCoords (always (ok 200 zeroResults)) sky "Atlantis" "g"
  = Panics "runtime error: index out of range [0] with length 0" /\
  @darkSky.getCoords (always (inr "dial tcp: i/o timeout")) sky "London" "g"
  = Returns (0%float, 0%float, Some (UpstreamError "dial tcp: i/o timeout")).
Proof.
  split; [|split].
  - apply (proj2 (proj2 (@getCoords_outcomes (always (ok 200 geocoded)) sky "London" "g"))).
    eexists _, _, _, _. repeat split; reflexivity.
  - apply (proj1 (@getCoords_outcomes (always (ok 200 zeroResults)) sky "Atlantis" "g")).
    split; [reflexivity|]. eexists _, _. repeat split; reflexivity.
  - apply (proj1 (proj2 (@getCoords_outcomes (always (inr "dial tcp: i/o timeout")) sky
                           "London" "g"))).
    repeat split. now apply upstream.
Defined.

Lemma geocoding_without_results_panics_witness :
  noResults requestDenied = true /\
  @darkSky.getCoords (always (ok 200 requestDenied)) sky "London" (darkSky.googleKey sky)
  = Panics "runtime error: index out of range [0] with length 0" /\
  forall formatter : fmt.Formatter,
    @darkSky.temperature (always (ok 200 requestDenied)) formatter sky "London"
    = Panics "runtime error: index out of range [0] with length 0".
Proof.
  split; [reflexivity|].
  exact (@geocoding_without_results_panics (always (ok 200 requestDenied)) sky "London"
           _ requestDenied eq_refl eq_refl eq_refl).
Defined.

(** ** Bodies of the wrong shape *)

Lemma member_sticky {A} (fields : list (json.field A)) (acc : A * option error)
    (m : string * json.value) :
  snd acc <> None -> snd (json.member fields acc m) <> None.
Proof.
  intros H. unfold json.member. destruct (json.findField fields (fst m)); [|exact H].
  destruct (json.store f (fst acc) (snd m)) as [c e]. cbn [snd].
  destruct (snd acc); [discriminate|contradiction].
Qed.

Lemma fold_member_sticky {A} (fields : list (json.field A))
    (members : list (string * json.value)) (acc : A * option error) :
  snd acc <> None -> snd (fold_left (json.member fields) members acc) <> None.
Proof.
  revert acc. induction members as [|m members IH]; intros acc H; cbn [fold_left]; auto.
  apply IH. now apply member_sticky.
Qed.

Lemma struct_misfit {A} (goType : string) (f : json.field A) (bad : json.value -> bool)
    (cur : A) (v : json.value) :
  (forall cur x, bad x = true -> snd (json.store f cur x) <> None) ->
  misfit (json.name f) bad v = true ->
  snd (json.struct goType [f] cur v) <> None.
Proof.
  intros Hbad Hv. destruct v as [| | | | |members]; try discriminate.
  cbn [json.struct misfit] in *. generalize (cur, @None error) as acc.
  induction members as [|m members IH]; intros acc; [discriminate|].
  cbn [existsb fold_left] in *. apply orb_true_iff in Hv as [Hm|Hv]; [|now apply IH].
  apply andb_true_iff in Hm as [Hk Hx]. apply fold_member_sticky.
  unfold json.member. rewrite findField_single, Hk.
  specialize (Hbad (fst acc) (snd m) Hx).
  destruct (json.store f (fst acc) (snd m)) as [c [e|]]; [|contradiction].
  cbn [snd]. destruct (snd acc); discriminate.
Qed.

Lemma within_snd {A B} (get : A -> B) (set : B -> A -> A) (d : json.decoder B)
    (cur : A) (v : json.value) :
  snd (json.within get set d cur v) = snd (d (get cur) v).
Proof. unfold json.within. now destruct (d (get cur) v). Qed.

Lemma struct_misfits {A B} (goType goType' : string) (outer inner : string)
    (get : A -> B) (set : B -> A -> A) (get' : B -> float64) (set' : float64 -> B -> B)
    (cur : A) (v : json.value) :
  misfits outer inner v = true ->
  exists d msg,
    json.struct goType
      [ {| json.name := outer;
           json.store := json.within get set
                           (json.struct goType'
                              [ {| json.name := inner;
                                   json.store := json.within get' set' json.float64_ |} ]) |} ]
      cur v
    = (d, Some (DecodeError msg)).
Proof.
  intros Hv.
  set (f' := {| json.name := inner; json.store := json.within get' set' json.float64_ |}).
  set (f := {| json.name := outer;
               json.store := json.within get set (json.struct goType' [f']) |}).
  assert (He : snd (json.struct goType [f] cur v) <> None).
  { apply (struct_misfit goType f (misfit inner mistyped)); [|exact Hv].
    intros cur0 x Hx. cbn [json.store f]. rewrite within_snd.
    apply (struct_misfit goType' f' mistyped); [|exact Hx].
    intros cur1 y Hy. cbn [json.store f']. rewrite within_snd.
    now rewrite (float64_mistyped _ y Hy). }
  assert (Hk : decodes (snd (json.struct goType [f] cur v))).
  { apply struct_wellKinded. subst f f'. well_kinded. }
  destruct (json.struct goType [f] cur v) as [d [[m|m|m]|]]; cbn [snd decodes] in *;
    try contradiction.
  now exists d, m.
Qed.

Section WrongShape.

Context `{client : http.Client} `{formatter : fmt.Formatter}.

(** X9.  A body in which the temperature, or the object it is in, or the
    whole document, is of another JSON type than the struct expects (a
    number sent as a string, a list instead of an object) is an error of
    decoding: the provider returns 0 and a [DecodeError], whatever else the
    body has, and whether or not the same key occurs again with a number. *)
Theorem wrong_shape_is_an_error (city : string) :
  (forall (w : openWeatherMap.t) resp v,
     http.Get (openWeatherMap.url w city) = inl resp ->
     http.body resp = http.Document v -> misfits "main" "temp" v = true ->
     exists msg, openWeatherMap.temperature w city = (0%float, Some (DecodeError msg))) /\
  (forall (w : weatherUnderground.t) resp v,
     http.Get (weatherUnderground.url w city) = inl resp ->
     http.body resp = http.Document v -> misfits "current_observation" "temp_c" v = true ->
     exists msg, weatherUnderground.temperature w city = (0%float, Some (DecodeError msg))) /\
  (forall (w : darkSky.t) lat lon resp v,
     darkSky.getCoords w city (darkSky.googleKey w) = Returns (lat, lon, None) ->
     http.Get (darkSky.forecastUrl w lat lon) = inl resp ->
     http.body resp = http.Document v -> misfits "Currently" "Temperature" v = true ->
     exists msg, darkSky.temperature w city = Returns (0%float, Some (DecodeError msg))).
Proof.
  split; [|split].
  - intros w resp v Hg Hb Hv.
    destruct (struct_misfits "struct { Main struct {...} }" "struct { Kelvin float64 }"
                "main" "temp" openWeatherMap.Main (fun m _ => {| openWeatherMap.Main := m |})
                openWeatherMap.Kelvin (fun k _ => {| openWeatherMap.Kelvin := k |})
                openWeatherMap.zero v Hv) as (d & msg & Hd).
    exists msg. unfold openWeatherMap.temperature. rewrite Hg, Hb. cbn [Decode].
    unfold openWeatherMap.shape. now rewrite Hd.
  - intros w resp v Hg Hb Hv.
    destruct (struct_misfits "struct { Observation struct {...} }" "struct { Celsius float64 }"
                "current_observation" "temp_c" weatherUnderground.Observation
                (fun o _ => {| weatherUnderground.Observation := o |})
                weatherUnderground.Celsius (fun c _ => {| weatherUnderground.Celsius := c |})
                weatherUnderground.zero v Hv) as (d & msg & Hd).
    exists msg. unfold weatherUnderground.temperature. rewrite Hg, Hb. cbn [Decode].
    unfold weatherUnderground.shape. now rewrite Hd.
  - intros w lat lon resp v Hc Hg Hb Hv.
    destruct (struct_misfits "struct { Currently struct {...} }"
                "struct { Temperature float64 }"
                "Currently" "Temperature" darkSky.Currently
                (fun c _ => {| darkSky.Currently := c |})
                darkSky.Temperature (fun x _ => {| darkSky.Temperature := x |})
                darkSky.zero v Hv) as (d & msg & Hd).
    exists msg. unfold darkSky.temperature. rewrite Hc, Hg, Hb. cbn [Decode].
    unfold darkSky.shape. now rewrite Hd.
Qed.

End WrongShape.

Lemma wrong_shape_is_an_error_witness :
  misfits "main" "temp" quoted = true /\
  misfits "current_observation" "temp_c" listed = true /\
  (exists msg, @openWeatherMap.temperature (always (ok 200 quoted))
                 {| openWeatherMap.apiKey := "k" |} "London"
               = (0%float, Some (DecodeError msg))) /\
  (exists msg, @weatherUnderground.temperature (always (ok 200 listed))
                 {| weatherUnderground.apiKey := "k" |} "London"
               = (0%float, Some (DecodeError msg))) /\
  (exists msg, @darkSky.temperature (routes (ok 200 geocoded) (ok 200 quoted)) (prints "0")
                 sky "London"
               = Returns (0%float, Some (DecodeError msg))).
Proof.
  do 2 (split; [reflexivity|]). split; [|split].
  - exact (proj1 (@wrong_shape_is_an_error (always (ok 200 quoted)) (prints "0") "London")
             {| openWeatherMap.apiKey := "k" |} _ quoted eq_refl eq_refl eq_refl).
  - exact (proj1 (proj2 (@wrong_shape_is_an_error (always (ok 200 listed)) (prints "0")
                           "London"))
             {| weatherUnderground.apiKey := "k" |} _ listed eq_refl eq_refl eq_refl).
  - exact (proj2 (proj2 (@wrong_shape_is_an_error (routes (ok 200 geocoded) (ok 200 quoted))
                           (prints "0") "London"))
             sky _ _ _ quoted eq_refl eq_refl eq_refl eq_refl).
Defined.

(** ** What darkSky asks for *)

(** X10.  [darkSky.temperature] makes at most two requests: the geocoding
    one and, only when that has given coordinates, the forecast one for
    these coordinates.  Two transports that agree on these give the same
    result; when geocoding fails or panics, the forecast service plays no
    part at all. *)
Theorem darkSky_makes_two_requests (c1 c2 : http.Client) (formatter : fmt.Formatter)
    (w : darkSky.t) (city : string) :
  @http.roundTrip c1 (darkSky.geocodeUrl city (darkSky.googleKey w))
  = @http.roundTrip c2 (darkSky.geocodeUrl city (darkSky.googleKey w)) ->
  (forall lat lon,
     @darkSky.getCoords c1 w city (darkSky.googleKey w) = Returns (lat, lon, None) ->
     @http.roundTrip c1 (@darkSky.forecastUrl formatter w lat lon)
     = @http.roundTrip c2 (@darkSky.forecastUrl formatter w lat lon)) ->
  @darkSky.getCoords c1 w city (darkSky.googleKey w)
  = @darkSky.getCoords c2 w city (darkSky.googleKey w) /\
  @darkSky.temperature c1 formatter w city = @darkSky.temperature c2 formatter w city.
Proof.
  intros Hg Hf.
  assert (Hc : @darkSky.getCoords c1 w city (darkSky.googleKey w)
               = @darkSky.getCoords c2 w city (darkSky.googleKey w)).
  { unfold darkSky.getCoords, http.Get. now rewrite Hg. }
  split; [exact Hc|]. unfold darkSky.temperature. rewrite <- Hc.
  destruct (@darkSky.getCoords c1 w city (darkSky.googleKey w))
    as [[[lat lon] [e|]]|msg] eqn:Hc1; try reflexivity.
  unfold http.Get. now rewrite (Hf lat lon eq_refl).
Qed.

Lemma darkSky_makes_two_requests_witness :
  @darkSky.temperature (routes (inr "dial tcp: i/o timeout") (ok 200 forecast)) (prints "0")
    sky "London"
  = @darkSky.temperature (routes (inr "dial tcp: i/o timeout") (ok 503 apology)) (prints "0")
      sky "London".
Proof.
  refine (proj2 (darkSky_makes_two_requests
                   (routes (inr "dial tcp: i/o timeout") (ok 200 forecast))
                   (routes (inr "dial tcp: i/o timeout") (ok 503 apology))
                   (prints "0") sky "London" eq_refl _)).
  intros lat lon H. vm_compute in H. discriminate H.
Defined.

(** ** The service *)

Lemma all_returned (d : list (outcome (float64 * option error))) :
  errsOf d = [] -> panicsOf d = [] -> d = map (fun k => Returns (k, None)) (tempsOf d).
Proof.
  unfold errsOf, panicsOf, tempsOf.
  induction d as [|[[k [e|]]|msg] d IH]; cbn [flat_map app map]; intros He Hp;
    try discriminate; [reflexivity|].
  f_equal. now apply IH.
Qed.

Lemma returned_success (city : string) (w : multiWeatherProvider.t)
    (sched : list action) (s : state) (t : float64) :
  exec city sched (init w) = Some s -> caller s = Returned (t, None) ->
  exists ts, Permutation (map (fun k => Returns (k, None)) ts) (outcomes city w) /\
             t = reported (fsum ts) (List.length w).
Proof.
  intros He Hm.
  destruct (reachable_Sound city w sched s He) as [HI|(msg & Hm' & _)]; [|congruence].
  set (d := arrivals city sched (init w)) in *.
  pose proof (inv_caller city w d s HI) as Hmain. rewrite Hm in Hmain.
  destruct Hmain as [[Hn Hr]|(e' & H & _)]; [|discriminate].
  destruct (Inv_success_all_arrived city w d s HI Hn) as (H1 & H2 & _ & _ & HP).
  exists (tempsOf d). split.
  - rewrite <- (all_returned d H1 (inv_panics city w d s HI)). exact HP.
  - injection Hr as ->. rewrite firstn_all2 by lia. reflexivity.
Qed.

Lemma exec_crash (city : string) (w : multiWeatherProvider.t) (k : nat)
    (p : weatherProvider.t) (msg : string) :
  nth_error w k = Some p -> weatherProvider.call p city = Panics msg ->
  exec city (repeat Spawn (List.length w) ++ [Deliver k]) (init w)
  = Some {| len_w := List.length w; caller := Crashed msg;
            goroutines := (firstn k w ++ skipn (S k) w)%list; temps := []; errs := [] |}.
Proof.
  intros Hk Hp. unfold init. rewrite exec_app, exec_spawn. cbn [app exec].
  unfold step. cbn [caller]. unfold deliver. cbn [goroutines]. rewrite Hk, Hp. reflexivity.
Qed.

Section ServiceProperties.

Context `{env : os.Env} `{client : http.Client} `{formatter : fmt.Formatter}.

Lemma routed (rest : string) :
  strings.SplitN ("/weather/" ++ rest) "/" 3 = [""; "weather"; rest].
Proof. reflexivity. Qed.

(** X11.  A request whose path begins with [/weather/] asks the three
    providers for the rest of the path, further slashes and all, and
    indexing the pieces of the path does not panic.  When the call of
    [mw.temperature] returns, the reply is either the error of one of the
    three providers, which failed, or, all three having returned a
    temperature, the city with the Fahrenheit value of the mean of the
    three, its fraction discarded. *)
Theorem handler_replies (rest took : string) (sched : list action) (o : outcome reply) :
  handler ("/weather/" ++ rest) took sched = Some o ->
  (exists e q x,
     In q mw /\ weatherProvider.call q rest = Returns (x, Some e) /\
     o = Returns (InternalServerError e)) \/
  (exists ts,
     Permutation (map (fun k => Returns (k, None)) ts) (outcomes rest mw) /\
     o = Returns (Encoded rest (int (reported (fsum ts) 3)) took)).
Proof.
  unfold handler. rewrite routed. cbn [nth_error].
  destruct (multiWeatherProvider.temperature mw rest sched) as [[t [e|]]|] eqn:Hr;
    [| |discriminate]; intros [= <-];
    apply temperature_returned in Hr; destruct Hr as (s & He & Hm).
  - left. destruct (returned_error_origin rest mw sched s t e He Hm) as (_ & q & x & Hq & Hc).
    now exists e, q, x.
  - right. destruct (returned_success rest mw sched s t He Hm) as (ts & HP & ->).
    now exists ts.
Qed.

Lemma noResults_panics (w : darkSky.t) (city : string) (res : http.Response)
    (v : json.value) :
  http.Get (darkSky.geocodeUrl city (darkSky.googleKey w)) = inl res ->
  http.body res = http.Document v -> noResults v = true ->
  darkSky.temperature w city = Panics "runtime error: index out of range [0] with length 0".
Proof.
  intros Hg Hb Hn. unfold darkSky.temperature, darkSky.getCoords. rewrite Hg, Hb.
  cbn [Decode]. now rewrite (shapeG_noResults v Hn).
Qed.

(** X12.  With the providers that [main] sets up, a city for which the
    geocoding service has no result is never answered with a temperature,
    under no interleaving and whatever the other two providers return; and
    the interleaving in which the call of darkSky comes back first ends the
    process. *)
Theorem unknown_place_is_never_answered (rest : string) (res : http.Response)
    (v : json.value) :
  http.Get (darkSky.geocodeUrl rest (os.Getenv "GOOGLE_GEOCODE_KEY")) = inl res ->
  http.body res = http.Document v -> noResults v = true ->
  (forall took sched city temp took',
     handler ("/weather/" ++ rest) took sched <> Some (Returns (Encoded city temp took'))) /\
  exists s,
    exec rest [Spawn; Spawn; Spawn; Deliver 2] (init mw) = Some s /\
    caller s = Crashed "runtime error: index out of range [0] with length 0".
Proof.
  intros Hg Hb Hn.
  set (sky0 := {| darkSky.apiKey := os.Getenv "DARK_SKY_KEY";
                  darkSky.googleKey := os.Getenv "GOOGLE_GEOCODE_KEY" |}).
  assert (Hp : weatherProvider.call (weatherProvider.box sky0) rest
               = Panics "runtime error: index out of range [0] with length 0")
    by exact (noResults_panics sky0 rest res v Hg Hb Hn).
  split.
  - intros took sched city temp took' H. unfold handler in H. rewrite routed in H.
    cbn [nth_error] in H.
    destruct (multiWeatherProvider.temperature mw rest sched) as [[t [e|]]|] eqn:Hr;
      try discriminate.
    apply temperature_returned in Hr. destruct Hr as (s & He & Hm).
    pose proof (returned_success_no_panic rest mw sched s t He Hm) as Hnil.
    unfold outcomes, mw in Hnil. cbn [map] in Hnil. fold sky0 in Hnil. rewrite Hp in Hnil.
    unfold panicsOf in Hnil. cbn [flat_map] in Hnil.
    apply app_eq_nil in Hnil as [_ Hnil]. apply app_eq_nil in Hnil as [_ Hnil].
    discriminate.
  - eexists. split;
      [exact (exec_crash rest mw 2 (weatherProvider.box sky0)
                "runtime error: index out of range [0] with length 0" eq_refl Hp)
      |reflexivity].
Qed.

End ServiceProperties.

Lemma handler_replies_witness :
  @handler keys upstreams (prints "0") "/weather/London" "1.5s" (inDeclarationOrder 3)
  = Some (Returns (Encoded "London" (Some 54%Z) "1.5s")) /\
  ((exists e q x,
      In q (@mw keys upstreams (prints "0")) /\
      weatherProvider.call q "London" = Returns (x, Some e) /\
      Returns (Encoded "London" (Some 54%Z) "1.5s") = Returns (InternalServerError e)) \/
   (exists ts,
      Permutation (map (fun k => Returns (k, None)) ts)
        (outcomes "London" (@mw keys upstreams (prints "0"))) /\
      Returns (Encoded "London" (Some 54%Z) "1.5s")
      = Returns (Encoded "London" (int (reported (fsum ts) 3)) "1.5s"))).
Proof.
  split; [vm_compute; reflexivity|].
  apply (@handler_replies keys upstreams (prints "0") "London" "1.5s" (inDeclarationOrder 3)).
  vm_compute. reflexivity.
Defined.

Lemma unknown_place_is_never_answered_witness :
  noResults zeroResults = true /\
  (forall took sched city temp took',
     @handler keys nowhere (prints "0") "/weather/Atlantis" took sched
     <> Some (Returns (Encoded city temp took'))) /\
  exists s,
    exec "Atlantis" [Spawn; Spawn; Spawn; Deliver 2] (init (@mw keys nowhere (prints "0")))
    = Some s /\
    caller s = Crashed "runtime error: index out of range [0] with length 0".
Proof.
  split; [reflexivity|].
  exact (@unknown_place_is_never_answered keys nowhere (prints "0") "Atlantis"
           _ zeroResults eq_refl eq_refl eq_refl).
Defined.
